(** * Land/sea fraction weighting ([esmvalcore/preprocessor/_weighting.py])

    A shallow embedding of [_shape_is_broadcastable], [_get_land_fraction]
    and [weighting_landsea_fraction], and the properties of the weighting
    preprocessor proved over it.

    Conventions of the embedding:
    - a shape is the tuple of dimension sizes, [list nat];
    - an array (numpy or dask) is its shape, its dtype and its elements as
      a function of the index tuple, which is also what a lazy array is;
      the scalar arithmetic is a parameter (class [Scalar]), instantiated
      with the exact rationals [Q] where a property needs the ring laws;
    - a cube is a mutable object: the store maps references to cubes, and
      the preprocessor receives and returns a reference; assigning to
      [cube.data] goes through the setter of iris, which refuses data of
      another shape;
    - loading an fx file and writing a debug record are recorded, in
      order, in the trace of the world; a path that is given is taken to
      load: an exception of [iris.load_cube] itself is not modelled. *)

From Stdlib Require Import String Ascii List Arith Bool Lia PeanoNat.
From Stdlib Require Import DecimalString QArith Lqa.
Import ListNotations.
Local Open Scope string_scope.
Local Open Scope list_scope.
Local Open Scope nat_scope.

Set Implicit Arguments.

(** ** Shapes *)

Definition shape_t := list nat.

(** [(m == n) or (m == 1) or (n == 1)] of [_shape_is_broadcastable]. *)
Definition dims_compatible (mn : nat * nat) : bool :=
  let '(m, n) := mn in (m =? n) || (m =? 1) || (n =? 1).

(** [_shape_is_broadcastable(shape_1, shape_2)]: [all] over the [zip] of
    the two reversed shapes; [zip] stops at the shorter one. *)
Definition _shape_is_broadcastable (shape_1 shape_2 : shape_t) : bool :=
  forallb dims_compatible (combine (rev shape_1) (rev shape_2)).

(** The rule in the words of the specification: the shorter shape is padded
    with size-1 dimensions on the left, then the shapes are compared
    position by position. *)
Definition pad_left (n : nat) (s : shape_t) : shape_t :=
  repeat 1 (n - length s) ++ s.

Definition spec_shape_compatible (s1 s2 : shape_t) : bool :=
  let n := Nat.max (length s1) (length s2) in
  forallb dims_compatible (combine (pad_left n s1) (pad_left n s2)).

(** The [k]-th dimension counted from the right (0 is the last one). *)
Definition dim_from_right (s : shape_t) (k : nat) : option nat :=
  nth_error (rev s) k.

(** numpy's broadcasting of two shapes, on the reversed shapes: the result
    has the longer rank, a size-1 dimension stretches to the other one, and
    two different sizes other than 1 do not broadcast. *)
Fixpoint broadcast_rev (r1 r2 : list nat) : option (list nat) :=
  match r1, r2 with
  | [], r => Some r
  | r, [] => Some r
  | m :: r1', n :: r2' =>
      if (m =? n) || (n =? 1) then option_map (cons m) (broadcast_rev r1' r2')
      else if m =? 1 then option_map (cons n) (broadcast_rev r1' r2')
      else None
  end.

Definition broadcast_shapes (s1 s2 : shape_t) : option shape_t :=
  option_map (@rev nat) (broadcast_rev (rev s1) (rev s2)).

(** The index into an operand of shape [s] that the index [idx] of the
    broadcast result reads: the trailing indices, with 0 on the operand's
    size-1 dimensions. *)
Definition bindex (s : shape_t) (idx : list nat) : list nat :=
  rev (map (fun dk : nat * nat => if fst dk =? 1 then 0 else snd dk)
           (combine (rev s) (rev idx))).

(** [idx] addresses an element of an array of shape [s]. *)
Definition valid_index (s : shape_t) (idx : list nat) : Prop :=
  Forall2 (fun k d => k < d) idx s.

(** [fs] broadcasts to [ts]: no more dimensions, and every dimension is 1
    or the target's. *)
Definition shape_broadcasts_to (fs ts : shape_t) : bool :=
  (length fs <=? length ts)
  && forallb (fun mn : nat * nat => (fst mn =? snd mn) || (fst mn =? 1))
             (combine (rev fs) (rev ts)).

(** [s1 == s2] on tuples of ints. *)
Fixpoint shape_eqb (s1 s2 : shape_t) : bool :=
  match s1, s2 with
  | [], [] => true
  | m :: s1', n :: s2' => (m =? n) && shape_eqb s1' s2'
  | _, _ => false
  end.

(** The index that an operand of shape [fs] contributes to the element
    [idx] of a result with at least as many dimensions, written from the
    left: the last [length fs] entries of [idx], with 0 where the operand
    has size 1. *)
Definition trailing_index (fs : shape_t) (idx : list nat) : list nat :=
  map (fun dk : nat * nat => if fst dk =? 1 then 0 else snd dk)
      (combine fs (skipn (length idx - length fs) idx)).

(** [str] of a non-negative int and of a tuple of them. *)
Definition str_int (n : nat) : string := NilEmpty.string_of_uint (Nat.to_uint n).

Definition str_tuple (s : shape_t) : string :=
  match s with
  | [] => "()"
  | [n] => String.append "(" (String.append (str_int n) ",)")
  | _ => String.append "(" (String.append (String.concat ", " (map str_int s)) ")")
  end.

(** ** Arrays *)

(** The dtypes that occur for gridded data. *)
Inductive dtype_t : Type := int32 | int64 | float32 | float64.

(** dtype of [a / 100.0] and of [1.0 - a]: floating, and [float64] for an
    integer or [float64] array.  For a [float32] array numpy gives
    [float32] or [float64] depending on its version and on the array class;
    the properties below only use that the result is floating. *)
Definition float_result (d : dtype_t) : dtype_t :=
  match d with
  | int32 | int64 => float64
  | float32 => float32
  | float64 => float64
  end.

(** numpy's [result_type] of two array dtypes. *)
Definition result_type (d1 d2 : dtype_t) : dtype_t :=
  match d1, d2 with
  | int32, int32 => int32
  | int32, int64 | int64, int32 | int64, int64 => int64
  | float32, float32 => float32
  | _, _ => float64
  end.

(** The arithmetic on array elements that the module uses: the literals
    [1.0] and [100.0], [/], [-] and [*]. *)
Class Scalar (A : Type) : Type := {
  lit_1 : A;
  lit_100 : A;
  sdiv : A -> A -> A;
  ssub : A -> A -> A;
  smul : A -> A -> A
}.

Record ndarray (A : Type) : Type := {
  shape : shape_t;
  dtype : dtype_t;
  item : list nat -> A
}.

Section Numpy.
Context {A : Type} `{Scalar A}.

(** [a / c] for an array [a] and a Python float [c]. *)
Definition true_divide (a : ndarray A) (c : A) : ndarray A :=
  {| shape := shape a;
     dtype := float_result (dtype a);
     item := fun idx => sdiv (item a idx) c |}.

(** [c - a] for a Python float [c] and an array [a]. *)
Definition rsubtract (c : A) (a : ndarray A) : ndarray A :=
  {| shape := shape a;
     dtype := float_result (dtype a);
     item := fun idx => ssub c (item a idx) |}.

(** [a * b] for two arrays: broadcast, or nothing where numpy raises
    "operands could not be broadcast together". *)
Definition multiply (a b : ndarray A) : option (ndarray A) :=
  match broadcast_shapes (shape a) (shape b) with
  | Some s =>
      Some {| shape := s;
              dtype := result_type (dtype a) (dtype b);
              item := fun idx => smul (item a (bindex (shape a) idx))
                                      (item b (bindex (shape b) idx)) |}
  | None => None
  end.
End Numpy.

(** Exact rational arithmetic. *)
#[global] Instance Q_Scalar : Scalar Q := {
  lit_1 := 1%Q;
  lit_100 := 100%Q;
  sdiv := Qdiv;
  ssub := Qminus;
  smul := Qmult
}.

(** ** Cubes, the store and the trace *)

Record Cube (A : Type) : Type := {
  var_name : string;
  attributes : list (string * string);
  data : ndarray A
}.

(** [cube.shape] and [cube.core_data()]. *)
Definition cube_shape {A} (c : Cube A) : shape_t := shape (data c).
Definition core_data {A} (c : Cube A) : ndarray A := data c.

(** The cube with the data [d] in place of its own; the name and the
    attributes stay.  This is what the setter of [cube.data] does once it
    has accepted [d]. *)
Definition with_data {A} (c : Cube A) (d : ndarray A) : Cube A :=
  {| var_name := var_name c; attributes := attributes c; data := d |}.

Definition ref := nat.

(** [not t] for a tuple [t]. *)
Definition is_nil (s : shape_t) : bool :=
  match s with
  | [] => true
  | _ :: _ => false
  end.

(** The message of the setter of [cube.data]:
    ["Require data with shape {!r}, got {!r}."] *)
Definition msg_require_shape (cube_s data_s : shape_t) : string :=
  String.append "Require data with shape "
    (String.append (str_tuple cube_s)
    (String.append ", got " (String.append (str_tuple data_s) "."))).

Inductive event : Type :=
| Load (path : string)     (* iris.load_cube(path) *)
| Debug (msg : string).    (* logger.debug(msg) *)

(** The world of a call: the fx files that [iris.load_cube] reads, the
    cubes in memory, and what has been loaded and logged so far.  Every
    path has a cube: a path that is given is a path that loads. *)
Record World (A : Type) : Type := {
  files : string -> Cube A;
  store : ref -> Cube A;
  trace : list event
}.

Inductive exn : Type :=
| TypeError (msg : string)
| ValueError (msg : string).

Inductive outcome (X : Type) : Type :=
| Return (x : X)
| Raise (e : exn).
Arguments Raise {X} e.

(** Computations that read and change the world and may raise. *)
Definition M (A X : Type) : Type := World A -> outcome X * World A.

Section Monad.
Context {A : Type}.

Definition ret {X} (x : X) : M A X := fun w => (Return x, w).

Definition bind {X Y} (c : M A X) (k : X -> M A Y) : M A Y :=
  fun w => match c w with
           | (Return x, w') => k x w'
           | (Raise e, w') => (Raise e, w')
           end.

Definition raise {X} (e : exn) : M A X := fun w => (Raise e, w).

(** The world after more events. *)
Definition add_trace (w : World A) (evs : list event) : World A :=
  {| files := files w; store := store w; trace := trace w ++ evs |}.

(** The world after the setter of [cube.data] has accepted [d] for the
    object behind [r]. *)
Definition update_data (w : World A) (r : ref) (d : ndarray A) : World A :=
  {| files := files w;
     store := fun r' => if r' =? r then with_data (store w r) d
                        else store w r';
     trace := trace w |}.

Definition emit (ev : event) : M A unit :=
  fun w => (Return tt, add_trace w [ev]).

(** [iris.load_cube(path)] *)
Definition iris_load_cube (path : string) : M A (Cube A) :=
  fun w => bind (emit (Load path)) (fun _ => ret (files w path)) w.

(** [logger.debug(msg)] *)
Definition logger_debug (msg : string) : M A unit := emit (Debug msg).

(** Reading the object behind a reference. *)
Definition deref (r : ref) : M A (Cube A) := fun w => (Return (store w r), w).

(** [cube.data = d] on the object behind [r], the setter of iris: data of
    another shape than the cube's raises a [ValueError] and leaves the cube
    as it was; the one reshape that is accepted is from the shape [()] to
    the shape [(1,)]. *)
Definition set_data (r : ref) (d : ndarray A) : M A unit :=
  fun w =>
    let cube_shape_now := cube_shape (store w r) in
    if negb (shape_eqb cube_shape_now (shape d)) then
      if negb (is_nil cube_shape_now) || negb (shape_eqb (shape d) [1])
      then (Raise (ValueError (msg_require_shape cube_shape_now (shape d))), w)
      else (Return tt, update_data w r d)
    else (Return tt, update_data w r d).
End Monad.

Notation "x <- c ;; k" := (bind c (fun x => k))
  (at level 61, c at next level, right associativity).
Notation "c ;;; k" := (bind c (fun _ => k))
  (at level 61, right associativity).

(** ** The preprocessor *)

(** [sep.join(l)] *)
Definition join (sep : string) (l : list string) : string := String.concat sep l.

(** The fx files: a [dict] from [var_name] to a path, [None] or the empty
    string where the file is missing, as the list of its items in insertion
    order.  The keys of a [dict] are distinct; no property below needs it. *)
Definition fx_files_t := list (string * option string).

(** The path when [fx_path] is truthy. *)
Definition source_of (fx_path : option string) : option string :=
  match fx_path with
  | Some p => if String.eqb p "" then None else Some p
  | None => None
  end.

Definition msg_no_files : string := "No fx files given.".

Definition msg_not_found (fx_var : string) : string :=
  String.append "File for '" (String.append fx_var "' not found.").

Definition msg_not_broadcastable (fx_var : string) (fx_shape : shape_t)
    (cube_name : string) (shape_c : shape_t) : string :=
  String.append "Cube '" (String.append fx_var
    (String.append "' with shape " (String.append (str_tuple fx_shape)
    (String.append " not broadcastable to cube '" (String.append cube_name
    (String.append "' with shape " (String.append (str_tuple shape_c) "."))))))).

Definition msg_cannot_calculate (fx_var : string) : string :=
  String.append "Cannot calculate land fraction from '"
    (String.append fx_var "', expected 'sftlf' or 'sftof'.").

Definition msg_type_error (area_type : string) : string :=
  String.append "Expected 'land' or 'sea' for area_type, got '"
    (String.append area_type "'").

Definition msg_value_error (errors : list string) : string :=
  String.append
    "Weighting with land/sea fraction is not possible, the following errors occured: "
    (join " " errors).

Definition msg_debug (cube_name area_type : string) (errors : list string) : string :=
  String.append "Weighting of '" (String.append cube_name
    (String.append "' with '" (String.append area_type
    (String.append "' fraction not possible because of the following problems: "
                   (join " " errors))))).

Section Weighting.
Context {A : Type} `{Scalar A}.

(** The [for ... else] of [_get_land_fraction] over the remaining items
    of the dict: [continue] is the recursive call, [break] returns the
    fraction, and the [else] clause is the end of the items. *)
Fixpoint _get_land_fraction_for (cube : ref) (items : fx_files_t)
    (errors : list string) : M A (option (ndarray A) * list string) :=
  match items with
  | [] => ret (None, errors)
  | (fx_var, fx_path) :: rest =>
      match source_of fx_path with
      | None =>
          _get_land_fraction_for cube rest (errors ++ [msg_not_found fx_var])
      | Some path =>
          fx_cube <- iris_load_cube path ;;
          c <- deref cube ;;
          if negb (_shape_is_broadcastable (cube_shape fx_cube) (cube_shape c))
          then
            _get_land_fraction_for cube rest
              (errors ++ [msg_not_broadcastable fx_var (cube_shape fx_cube)
                                                (var_name c) (cube_shape c)])
          else if String.eqb fx_var "sftlf" then
            ret (Some (true_divide (core_data fx_cube) lit_100), errors)
          else if String.eqb fx_var "sftof" then
            ret (Some (rsubtract lit_1 (true_divide (core_data fx_cube) lit_100)),
                 errors)
          else
            _get_land_fraction_for cube rest
              (errors ++ [msg_cannot_calculate fx_var])
      end
  end.

Definition _get_land_fraction (cube : ref) (fx_files : fx_files_t)
    : M A (option (ndarray A) * list string) :=
  let errors := match fx_files with
                | [] => [msg_no_files]
                | _ :: _ => []
                end in
  _get_land_fraction_for cube fx_files errors.

(** [cube.data = core_data * weight]: numpy raises a [ValueError] when
    the operands do not broadcast, and the setter of [cube.data] raises
    one when the product has another shape than the cube. *)
Definition assign_product (cube : ref) (core weight : ndarray A) : M A unit :=
  match multiply core weight with
  | Some d => set_data cube d
  | None => raise (ValueError "operands could not be broadcast together")
  end.

Definition weighting_landsea_fraction (cube : ref) (fx_files : fx_files_t)
    (area_type : string) (strict : bool) : M A ref :=
  if negb (String.eqb area_type "land" || String.eqb area_type "sea") then
    raise (TypeError (msg_type_error area_type))
  else
    r <- _get_land_fraction cube fx_files ;;
    let '(land_fraction, errors) := r in
    match land_fraction with
    | None =>
        if strict then raise (ValueError (msg_value_error errors))
        else
          c <- deref cube ;;
          logger_debug (msg_debug (var_name c) area_type errors) ;;;
          ret cube
    | Some land_fraction =>
        c <- deref cube ;;
        let core := core_data c in
        (if String.eqb area_type "land"
         then assign_product cube core land_fraction
         else ret tt) ;;;
        (if String.eqb area_type "sea"
         then assign_product cube core (rsubtract lit_1 land_fraction)
         else ret tt) ;;;
        ret cube
    end.
End Weighting.

(** ** Vocabulary of the statements *)

Section Vocabulary.
Context {A : Type} `{Scalar A}.

(** An entry of [fx_files] from which the loop takes the fraction: the
    path is given, the shape of its cube passes the check against the
    target shape, and the variable is [sftlf] or [sftof]. *)
Definition usable (w : World A) (target : shape_t)
    (entry : string * option string) : bool :=
  match source_of (snd entry) with
  | None => false
  | Some path =>
      _shape_is_broadcastable (cube_shape (files w path)) target
      && (String.eqb (fst entry) "sftlf" || String.eqb (fst entry) "sftof")
  end.

(** The fraction that the loop computes from a usable entry's cube. *)
Definition fraction_from (fx_var : string) (fx_cube : Cube A) : ndarray A :=
  if String.eqb fx_var "sftlf"
  then true_divide (core_data fx_cube) lit_100
  else rsubtract lit_1 (true_divide (core_data fx_cube) lit_100).

(** The message that the loop records for an entry that is not usable. *)
Definition diagnostic (w : World A) (c : Cube A)
    (entry : string * option string) : string :=
  match source_of (snd entry) with
  | None => msg_not_found (fst entry)
  | Some path =>
      if _shape_is_broadcastable (cube_shape (files w path)) (cube_shape c)
      then msg_cannot_calculate (fst entry)
      else msg_not_broadcastable (fst entry) (cube_shape (files w path))
                                 (var_name c) (cube_shape c)
  end.

(** The load that examining an entry performs. *)
Definition loads_of (entry : string * option string) : list event :=
  match source_of (snd entry) with
  | None => []
  | Some path => [Load path]
  end.

Definition is_load (ev : event) : bool :=
  match ev with Load _ => true | Debug _ => false end.

(** [area_type in ('land', 'sea')] *)
Definition valid_area_type (area_type : string) : bool :=
  String.eqb area_type "land" || String.eqb area_type "sea".

(** The array that the target's data is multiplied with. *)
Definition weight_of (area_type : string) (land_fraction : ndarray A)
    : ndarray A :=
  if String.eqb area_type "land" then land_fraction
  else rsubtract lit_1 land_fraction.
End Vocabulary.

(** The errors before the loop of [_get_land_fraction]. *)
Definition initial_errors (fx_files : fx_files_t) : list string :=
  match fx_files with
  | [] => [msg_no_files]
  | _ :: _ => []
  end.

(** The setter of [cube.data] accepts data of shape [data_s] for a cube of
    shape [cube_s]. *)
Definition setter_accepts (cube_s data_s : shape_t) : bool :=
  shape_eqb cube_s data_s || (is_nil cube_s && shape_eqb data_s [1]).

(** The failure of the module: the [ValueError] whose message starts with
    the explanation that the weighting is not possible. *)
Definition weighting_unavailable (e : exn) : Prop :=
  exists rest,
    e = ValueError
          (String.append
             "Weighting with land/sea fraction is not possible, the following errors occured: "
             rest).

(** [t] occurs in [s]. *)
Definition contains (s t : string) : Prop :=
  exists a b, s = String.append a (String.append t b).

(** The diagnostics [errors] reach the caller: in the message of the
    [ValueError] that the call raises, or in a debug record among the
    events [evs] of the call. *)
Definition attached (errors : list string) (o : outcome ref)
    (evs : list event) : Prop :=
  (exists msg, o = Raise (ValueError msg) /\ contains msg (join " " errors))
  \/ (exists msg, In (Debug msg) evs /\ contains msg (join " " errors)).

(** ** A concrete world for examples *)

Module Demo.
Definition constant (s : shape_t) (d : dtype_t) (q : Q) : ndarray Q :=
  {| shape := s; dtype := d; item := fun _ => q |}.

(** The value at index [(i, j)] is [10 i + j + 1]. *)
Definition ramp (s : shape_t) (d : dtype_t) : ndarray Q :=
  {| shape := s; dtype := d;
     item := fun idx => inject_Z (Z.of_nat (10 * nth 0 idx 0 + nth 1 idx 0 + 1)) |}.

Definition fx (name : string) (a : ndarray Q) : Cube Q :=
  {| var_name := name; attributes := []; data := a |}.

Definition disk (path : string) : Cube Q :=
  if String.eqb path "sftlf.nc" then fx "sftlf" (constant [2; 3] float32 50)
  else if String.eqb path "sftof.nc" then fx "sftof" (constant [1; 1] float64 25)
  else if String.eqb path "sftlf_4.nc" then fx "sftlf" (constant [4] float32 50)
  else if String.eqb path "sftlf_time.nc" then fx "sftlf" (constant [5; 2; 3] float64 50)
  else if String.eqb path "areacello.nc" then fx "areacello" (constant [2; 3] float32 7)
  else if String.eqb path "sftlf_row.nc" then fx "sftlf" (ramp [1; 3] float64)
  else if String.eqb path "sftlf_1.nc" then fx "sftlf" (constant [1] float64 50)
  else fx "unknown" (constant [] float64 0).

Definition nbp : Cube Q :=
  {| var_name := "nbp"; attributes := [("units", "kg m-2 s-1")];
     data := ramp [2; 3] float64 |}.

Definition counts : Cube Q :=
  {| var_name := "counts"; attributes := []; data := ramp [2; 3] int64 |}.

(** A cube without dimensions. *)
Definition total : Cube Q :=
  {| var_name := "total"; attributes := []; data := constant [] float64 8 |}.

(** Reference 0 is [nbp], reference 2 is [total], every other reference is
    [counts]. *)
Definition memory (r : ref) : Cube Q :=
  if r =? 0 then nbp else if r =? 2 then total else counts.

Definition w0 : World Q := {| files := disk; store := memory; trace := [] |}.
End Demo.

(** ** The documentation build ([doc/conf.py]) *)

Module Conf.
(** [os.environ]: the value of a variable, if it is set. *)
Definition environ := string -> option string.

(** [os.environ.get(key, default)] *)
Definition environ_get (env : environ) (key default : string) : string :=
  match env key with
  | Some v => v
  | None => default
  end.

(** [on_rtd = os.environ.get("READTHEDOCS", None) == "True"] *)
Definition on_rtd (env : environ) : bool :=
  match env "READTHEDOCS" with
  | Some v => String.eqb v "True"
  | None => false
  end.

(** [x in l] for a list of strings. *)
Definition str_in (x : string) (l : list string) : bool :=
  existsb (String.eqb x) l.

(** [rtd_version]: the variable [READTHEDOCS_VERSION], [latest] when it is
    not set, replaced by [latest] when it is not in [["latest", "doc"]]. *)
Definition rtd_version (env : environ) : string :=
  let v := environ_get env "READTHEDOCS_VERSION" "latest" in
  if negb (str_in v ["latest"; "doc"]) then "latest" else v.

(** [s.split(sep)] for a separator of one character: the pieces between
    the occurrences of [sep], at least one piece. *)
Fixpoint split_on (sep : ascii) (s : string) : list string :=
  match s with
  | EmptyString => [EmptyString]
  | String c rest =>
      if Ascii.eqb c sep then EmptyString :: split_on sep rest
      else match split_on sep rest with
           | piece :: pieces => String c piece :: pieces
           | [] => [String c EmptyString]
           end
  end.

(** [version = '.'.join(__version__.split('.')[0:1])] and
    [release = __version__]. *)
Definition version (__version__ : string) : string :=
  join "." (firstn 1 (split_on "." __version__)).

Definition release (__version__ : string) : string := __version__.

(** [html_short_title = "ESMValTool {0}".format(release)] *)
Definition html_short_title (__version__ : string) : string :=
  String.append "ESMValTool " (release __version__).

(** The two entries of [intersphinx_mapping] that depend on the build. *)
Definition intersphinx_esmvalcore (env : environ) : string :=
  String.append "https://docs.esmvaltool.org/projects/esmvalcore/en/"
                (String.append (rtd_version env) "/").

Definition intersphinx_esmvaltool (env : environ) : string :=
  String.append "https://docs.esmvaltool.org/en/"
                (String.append (rtd_version env) "/").

(** [c] occurs in [s]. *)
Fixpoint has_char (c : ascii) (s : string) : bool :=
  match s with
  | EmptyString => false
  | String c' rest => Ascii.eqb c' c || has_char c rest
  end.
End Conf.

Unset Implicit Arguments.

(** * Properties *)

(** ** Runs on the concrete world *)

(** An [sftlf] file of 50 percent halves the data. *)
Example demo_land :
  let run := weighting_landsea_fraction 0 [("sftlf", Some "sftlf.nc")]
               "land" true Demo.w0 in
  fst run = Return 0
  /\ trace (snd run) = [Load "sftlf.nc"]
  /\ Qeq (item (data (store (snd run) 0)) [1; 2]) (13 / 2)
  /\ cube_shape (store (snd run) 0) = [2; 3].
Proof. repeat split. Qed.

(** An [sftof] file of shape [(1, 1)] with 25 percent sea broadcasts against
    the target of shape [(2, 3)]: the land weight is 3/4 everywhere. *)
Example demo_broadcast :
  let run := weighting_landsea_fraction 0 [("sftof", Some "sftof.nc")]
               "land" true Demo.w0 in
  fst run = Return 0
  /\ Qeq (item (data (store (snd run) 0)) [0; 0]) (1 * (3 / 4))
  /\ Qeq (item (data (store (snd run) 0)) [1; 2]) (13 * (3 / 4))
  /\ cube_shape (store (snd run) 0) = [2; 3].
Proof. repeat split. Qed.

(** A file of shape [(4,)] does not pass the check against [(2, 3)]; without
    [strict] the cube is returned as it was. *)
Example demo_incompatible :
  _shape_is_broadcastable [4] [2; 3] = false
  /\ let run := weighting_landsea_fraction 0 [("sftlf", Some "sftlf_4.nc")]
                  "sea" false Demo.w0 in
     fst run = Return 0
     /\ Qeq (item (data (store (snd run) 0)) [1; 2]) 13
     /\ trace (snd run) =
        [Load "sftlf_4.nc";
         Debug "Weighting of 'nbp' with 'sea' fraction not possible because of the following problems: Cube 'sftlf' with shape (4,) not broadcastable to cube 'nbp' with shape (2, 3)."].
Proof. repeat split. Qed.

(** A fraction with a leading dimension more than the target passes the
    check, but its product has another shape than the cube: the setter of
    [cube.data] raises, with [strict] or without, and the cube is as it
    was. *)
Example demo_setter_refuses :
  let run := weighting_landsea_fraction 0 [("sftlf", Some "sftlf_time.nc")]
               "land" false Demo.w0 in
  fst run
  = Raise (ValueError "Require data with shape (2, 3), got (5, 2, 3).")
  /\ store (snd run) = store Demo.w0
  /\ trace (snd run) = [Load "sftlf_time.nc"].
Proof. repeat split. Qed.

(** With no fx files the call raises if [strict]. *)
Example demo_no_files :
  weighting_landsea_fraction 0 [] "land" true Demo.w0 =
  (Raise (ValueError
            "Weighting with land/sea fraction is not possible, the following errors occured: No fx files given."),
   Demo.w0).
Proof. reflexivity. Qed.

(** ** Facts about lists used for shapes *)

Section ListFacts.
Context {X Y : Type}.

Lemma forallb_rev (f : X -> bool) (l : list X) :
  forallb f (rev l) = forallb f l.
Proof.
  induction l as [|x l IH]; simpl; [reflexivity|].
  rewrite forallb_app, IH. simpl. rewrite andb_true_r. apply andb_comm.
Qed.

Lemma combine_app_same (a c : list X) (b d : list Y) :
  length a = length b ->
  combine (a ++ c) (b ++ d) = combine a b ++ combine c d.
Proof.
  revert b. induction a as [|x a IH]; intros [|y b] Hlen; simpl in *;
    try discriminate; [reflexivity|].
  f_equal. apply IH. lia.
Qed.

Lemma combine_rev_same (a : list X) (b : list Y) :
  length a = length b ->
  combine (rev a) (rev b) = rev (combine a b).
Proof.
  revert b. induction a as [|x a IH]; intros [|y b] Hlen; simpl in *;
    try discriminate; [reflexivity|].
  rewrite combine_app_same by (rewrite !length_rev; lia).
  rewrite IH by lia. reflexivity.
Qed.

(** [zip] stops at the shorter list. *)
Lemma combine_short_l (a : list X) (b d : list Y) :
  length a = length b -> combine a (b ++ d) = combine a b.
Proof.
  revert b. induction a as [|x a IH]; intros [|y b] Hlen; simpl in *;
    try discriminate; [reflexivity|].
  f_equal. apply IH. lia.
Qed.

Lemma combine_short_r (a c : list X) (b : list Y) :
  length a = length b -> combine (a ++ c) b = combine a b.
Proof.
  revert b. induction a as [|x a IH]; intros [|y b] Hlen; simpl in *;
    try discriminate.
  - destruct c; reflexivity.
  - f_equal. apply IH. lia.
Qed.

Lemma forallb_combine_nth (f : X * Y -> bool) (a : list X) (b : list Y) :
  forallb f (combine a b) = true <->
  (forall k x y, nth_error a k = Some x -> nth_error b k = Some y ->
                 f (x, y) = true).
Proof.
  revert b. induction a as [|x a IH]; intros b; simpl.
  - split; [|reflexivity]. intros _ [|k] ? ? Hx; discriminate Hx.
  - destruct b as [|y b]; simpl.
    + split; [|reflexivity]. intros _ [|k] ? ? _ Hy; discriminate Hy.
    + rewrite andb_true_iff, IH. split.
      * intros [Hxy Hrest] [|k] x' y' Hx Hy; simpl in *.
        -- congruence.
        -- eauto.
      * intros Hall. split.
        -- apply (Hall 0); reflexivity.
        -- intros k x' y' Hx Hy. apply (Hall (S k)); assumption.
Qed.
End ListFacts.

Lemma split_at_length {X} (l : list X) (k : nat) :
  k <= length l ->
  exists a b, l = a ++ b /\ length a = k.
Proof.
  intros Hk. exists (firstn k l), (skipn k l). split.
  - symmetry. apply firstn_skipn.
  - apply firstn_length_le. exact Hk.
Qed.

Lemma dims_compatible_sym (m n : nat) :
  dims_compatible (m, n) = dims_compatible (n, m).
Proof.
  unfold dims_compatible. rewrite (Nat.eqb_sym m n).
  destruct (n =? m), (m =? 1), (n =? 1); reflexivity.
Qed.

Lemma dims_compatible_spec (m n : nat) :
  dims_compatible (m, n) = true <-> m = n \/ m = 1 \/ n = 1.
Proof.
  unfold dims_compatible.
  rewrite !orb_true_iff, !Nat.eqb_eq. tauto.
Qed.

Lemma forallb_dims_ones (k : nat) (l : list nat) :
  forallb dims_compatible (combine (repeat 1 k) l) = true.
Proof.
  revert l. induction k as [|k IH]; intros [|n l]; try reflexivity.
  cbn [repeat combine forallb]. rewrite IH, andb_true_r.
  apply dims_compatible_spec. auto.
Qed.

Lemma forallb_dims_swap (a b : list nat) :
  forallb dims_compatible (combine a b) = forallb dims_compatible (combine b a).
Proof.
  revert b. induction a as [|m a IH]; intros [|n b]; try reflexivity.
  cbn [combine forallb]. rewrite IH, dims_compatible_sym. reflexivity.
Qed.

Lemma _shape_is_broadcastable_sym (s1 s2 : shape_t) :
  _shape_is_broadcastable s1 s2 = _shape_is_broadcastable s2 s1.
Proof. apply forallb_dims_swap. Qed.

Lemma spec_shape_compatible_sym (s1 s2 : shape_t) :
  spec_shape_compatible s1 s2 = spec_shape_compatible s2 s1.
Proof.
  unfold spec_shape_compatible. rewrite Nat.max_comm. apply forallb_dims_swap.
Qed.

(** The two definitions agree when the first shape is the shorter one. *)
Lemma broadcastable_padded_le (s1 s2 : shape_t) :
  length s1 <= length s2 ->
  _shape_is_broadcastable s1 s2 = spec_shape_compatible s1 s2.
Proof.
  intros Hle.
  unfold _shape_is_broadcastable, spec_shape_compatible, pad_left.
  rewrite Nat.max_r by exact Hle.
  replace (length s2 - length s2) with 0 by lia. simpl.
  destruct (@split_at_length _ s2 (length s2 - length s1))
    as (hd & tl & -> & Hhd); [lia|].
  rewrite length_app in *.
  replace (length hd + length tl - length s1) with (length hd) by lia.
  assert (Htl : length s1 = length tl) by lia.
  rewrite combine_app_same by (rewrite repeat_length; reflexivity).
  rewrite forallb_app, forallb_dims_ones. simpl.
  rewrite rev_app_distr.
  rewrite combine_short_l by (rewrite !length_rev; exact Htl).
  rewrite combine_rev_same by exact Htl.
  apply forallb_rev.
Qed.

Lemma broadcastable_padded (s1 s2 : shape_t) :
  _shape_is_broadcastable s1 s2 = spec_shape_compatible s1 s2.
Proof.
  destruct (Nat.le_ge_cases (length s1) (length s2)) as [Hle|Hge].
  - apply broadcastable_padded_le. exact Hle.
  - rewrite _shape_is_broadcastable_sym, spec_shape_compatible_sym.
    apply broadcastable_padded_le. exact Hge.
Qed.

(** C7: [_shape_is_broadcastable] is true exactly when, with the shapes
    aligned at their last dimension, every pair of overlapping dimensions is
    equal or has a member equal to 1; this is the same as padding the
    shorter shape with size-1 dimensions on the left and comparing the
    shapes position by position. *)
Theorem shape_is_broadcastable_trailing_rule (s1 s2 : shape_t) :
  (_shape_is_broadcastable s1 s2 = true <->
   forall k m n, dim_from_right s1 k = Some m -> dim_from_right s2 k = Some n ->
                 m = n \/ m = 1 \/ n = 1)
  /\ _shape_is_broadcastable s1 s2 = spec_shape_compatible s1 s2.
Proof.
  split; [|apply broadcastable_padded].
  unfold _shape_is_broadcastable, dim_from_right.
  rewrite forallb_combine_nth. split; intros Hall k m n Hm Hn.
  - apply dims_compatible_spec. eapply Hall; eassumption.
  - apply dims_compatible_spec. eapply Hall; eassumption.
Qed.

(** The first element of a list that satisfies a test, if any. *)
Lemma first_true_split {X} (f : X -> bool) (l : list X) :
  (exists pre x post,
      l = pre ++ x :: post /\ existsb f pre = false /\ f x = true)
  \/ existsb f l = false.
Proof.
  induction l as [|a l IH]; [right; reflexivity|].
  destruct (f a) eqn:Ha.
  - left. exists [], a, l. repeat split. exact Ha.
  - destruct IH as [(pre & x & post & -> & Hpre & Hx)|Hnone].
    + left. exists (a :: pre), x, post. repeat split; [|exact Hx].
      simpl. rewrite Ha. exact Hpre.
    + right. simpl. rewrite Ha. exact Hnone.
Qed.

(** ** Resolution of the land fraction *)

Section Resolution.
Context {A : Type} `{Scalar A}.

Lemma add_trace_nil (w : World A) : add_trace w [] = w.
Proof. destruct w; unfold add_trace; simpl. rewrite app_nil_r. reflexivity. Qed.

Lemma add_trace_app (w : World A) (e1 e2 : list event) :
  add_trace (add_trace w e1) e2 = add_trace w (e1 ++ e2).
Proof. unfold add_trace; simpl. rewrite app_assoc. reflexivity. Qed.

Lemma loads_of_are_loads (items : fx_files_t) :
  forallb is_load (flat_map loads_of items) = true.
Proof.
  induction items as [|[v p] items IH]; simpl; [reflexivity|].
  rewrite forallb_app, IH, andb_true_r.
  unfold loads_of; simpl. destruct (source_of p); reflexivity.
Qed.

(** One iteration that ends in [continue]. *)
Lemma for_continue (cube : ref) (e : string * option string)
    (rest : fx_files_t) (errors : list string) (w : World A) :
  usable w (cube_shape (store w cube)) e = false ->
  _get_land_fraction_for cube (e :: rest) errors w =
  _get_land_fraction_for cube rest
    (errors ++ [diagnostic w (store w cube) e]) (add_trace w (loads_of e)).
Proof.
  destruct e as [v p]. unfold usable, diagnostic, loads_of. simpl.
  destruct (source_of p) as [path|].
  - unfold bind, iris_load_cube, emit, ret, deref. simpl. fold (add_trace w [Load path]).
    destruct (_shape_is_broadcastable _ _); simpl; [|reflexivity].
    intros Hv. apply orb_false_iff in Hv as [-> ->]. reflexivity.
  - intros _. rewrite add_trace_nil. reflexivity.
Qed.

(** One iteration that ends in [break]. *)
Lemma for_break (cube : ref) (v : string) (p : option string) (path : string)
    (rest : fx_files_t) (errors : list string) (w : World A) :
  usable w (cube_shape (store w cube)) (v, p) = true ->
  source_of p = Some path ->
  _get_land_fraction_for cube ((v, p) :: rest) errors w =
  (Return (Some (fraction_from v (files w path)), errors),
   add_trace w [Load path]).
Proof.
  unfold usable, fraction_from. simpl. intros Hu Hp. rewrite Hp in *.
  apply andb_true_iff in Hu as [Hshape Hv].
  unfold bind, iris_load_cube, emit, ret, deref. simpl.
  rewrite Hshape. simpl.
  destruct (String.eqb v "sftlf"); [reflexivity|].
  simpl in Hv. rewrite Hv. reflexivity.
Qed.

(** The entries before the first usable one only add diagnostics and
    loads. *)
Lemma for_skip_prefix (cube : ref) (pre rest : fx_files_t)
    (errors : list string) (w : World A) :
  existsb (usable w (cube_shape (store w cube))) pre = false ->
  _get_land_fraction_for cube (pre ++ rest) errors w =
  _get_land_fraction_for cube rest
    (errors ++ map (diagnostic w (store w cube)) pre)
    (add_trace w (flat_map loads_of pre)).
Proof.
  revert errors w. induction pre as [|e pre IH]; intros errors w Hpre.
  - simpl. rewrite app_nil_r, add_trace_nil. reflexivity.
  - simpl in Hpre. apply orb_false_iff in Hpre as [He Hpre].
    cbn [app map flat_map]. rewrite for_continue by exact He.
    rewrite IH by exact Hpre. cbn [files store add_trace].
    rewrite add_trace_app, <- app_assoc. reflexivity.
Qed.

(** The loop always returns: with the fraction of the first usable entry,
    or with nothing when no entry is usable. *)
Lemma for_cases (cube : ref) (items : fx_files_t) (errors : list string)
    (w : World A) :
  (exists pre v p path post,
      items = pre ++ (v, p) :: post
      /\ existsb (usable w (cube_shape (store w cube))) pre = false
      /\ usable w (cube_shape (store w cube)) (v, p) = true
      /\ source_of p = Some path
      /\ _get_land_fraction_for cube items errors w =
         (Return (Some (fraction_from v (files w path)),
                  errors ++ map (diagnostic w (store w cube)) pre),
          add_trace w (flat_map loads_of pre ++ [Load path])))
  \/ (existsb (usable w (cube_shape (store w cube))) items = false
      /\ _get_land_fraction_for cube items errors w =
         (Return (None, errors ++ map (diagnostic w (store w cube)) items),
          add_trace w (flat_map loads_of items))).
Proof.
  destruct (first_true_split (usable w (cube_shape (store w cube))) items)
    as [(pre & [v p] & post & -> & Hpre & Hx)|Hnone].
  - left. assert (Hsrc : exists path, source_of p = Some path).
    { unfold usable in Hx. simpl in Hx.
      destruct (source_of p) as [path|]; [eauto|discriminate]. }
    destruct Hsrc as [path Hsrc].
    exists pre, v, p, path, post. repeat split; try assumption.
    rewrite for_skip_prefix by exact Hpre.
    rewrite (@for_break cube v p path) by assumption.
    cbn [files store add_trace]. rewrite add_trace_app. reflexivity.
  - right. split; [exact Hnone|].
    rewrite <- (app_nil_r items) at 1.
    rewrite for_skip_prefix by exact Hnone. reflexivity.
Qed.
End Resolution.

(** ** Broadcasting *)

Lemma forallb_dims_diag (l : list nat) :
  forallb dims_compatible (combine l l) = true.
Proof.
  induction l as [|n l IH]; [reflexivity|].
  cbn [combine forallb]. rewrite IH, andb_true_r.
  apply dims_compatible_spec. auto.
Qed.

(** Extra leading dimensions are not compared. *)
Lemma broadcastable_extra_leading (p s : shape_t) :
  _shape_is_broadcastable (p ++ s) s = true.
Proof.
  unfold _shape_is_broadcastable. rewrite rev_app_distr.
  rewrite combine_short_r by reflexivity.
  apply forallb_dims_diag.
Qed.

(** Shapes that pass the check of the module broadcast in numpy. *)
Lemma broadcast_rev_defined (r1 r2 : list nat) :
  forallb dims_compatible (combine r1 r2) = true ->
  exists r, broadcast_rev r2 r1 = Some r.
Proof.
  revert r2. induction r1 as [|m r1 IH]; intros [|n r2] Hall;
    try (eexists; reflexivity).
  cbn [combine forallb] in Hall. apply andb_true_iff in Hall as [Hmn Hall].
  destruct (IH r2 Hall) as [r Hr]. cbn [broadcast_rev]. rewrite Hr.
  apply dims_compatible_spec in Hmn.
  destruct (Nat.eqb_spec n m); [eexists; reflexivity|].
  destruct (Nat.eqb_spec m 1); [eexists; reflexivity|].
  destruct (Nat.eqb_spec n 1); [eexists; reflexivity|].
  exfalso. destruct Hmn as [?|[?|?]]; congruence.
Qed.

Lemma broadcast_shapes_defined (fs ts : shape_t) :
  _shape_is_broadcastable fs ts = true ->
  exists s, broadcast_shapes ts fs = Some s.
Proof.
  intros Hb. destruct (broadcast_rev_defined _ _ Hb) as [r Hr].
  exists (rev r). unfold broadcast_shapes. rewrite Hr. reflexivity.
Qed.

Lemma broadcast_rev_to (rf rt : list nat) :
  length rf <= length rt ->
  forallb (fun mn : nat * nat => (fst mn =? snd mn) || (fst mn =? 1))
          (combine rf rt) = true ->
  broadcast_rev rt rf = Some rt.
Proof.
  revert rf. induction rt as [|n rt IH]; intros [|m rf] Hlen Hall;
    simpl in Hlen; try reflexivity; [lia|].
  cbn [combine forallb fst snd] in Hall.
  apply andb_true_iff in Hall as [Hmn Hall].
  cbn [broadcast_rev]. rewrite (IH rf) by (assumption || lia).
  rewrite (Nat.eqb_sym n m), Hmn. reflexivity.
Qed.

(** A shape that broadcasts to the target's leaves the target's shape. *)
Lemma broadcast_shapes_to (fs ts : shape_t) :
  shape_broadcasts_to fs ts = true ->
  broadcast_shapes ts fs = Some ts.
Proof.
  unfold shape_broadcasts_to. intros Hb.
  apply andb_true_iff in Hb as [Hlen Hall]. apply Nat.leb_le in Hlen.
  unfold broadcast_shapes.
  rewrite broadcast_rev_to by (rewrite ?length_rev; assumption).
  simpl. rewrite rev_involutive. reflexivity.
Qed.

(** The index of an element of the target is not changed by broadcasting. *)
Lemma bindex_valid (s : shape_t) (idx : list nat) :
  valid_index s idx -> bindex s idx = idx.
Proof.
  unfold valid_index, bindex. intros Hv.
  assert (Hlen : length s = length idx)
    by (symmetry; eapply Forall2_length; exact Hv).
  rewrite combine_rev_same by exact Hlen.
  rewrite map_rev, rev_involutive.
  induction Hv as [|k d idx s Hkd Hv IH]; [reflexivity|].
  simpl. rewrite IH by (simpl in Hlen; lia). f_equal.
  destruct (Nat.eqb_spec d 1); [lia|reflexivity].
Qed.

Section ArrayFacts.
Context {A : Type} `{Scalar A}.

Lemma shape_true_divide (a : ndarray A) (c : A) :
  shape (true_divide a c) = shape a.
Proof. reflexivity. Qed.

Lemma shape_rsubtract (c : A) (a : ndarray A) :
  shape (rsubtract c a) = shape a.
Proof. reflexivity. Qed.

Lemma shape_fraction_from (v : string) (c : Cube A) :
  shape (fraction_from v c) = cube_shape c.
Proof. unfold fraction_from. destruct (String.eqb v "sftlf"); reflexivity. Qed.

Lemma shape_weight_of (area_type : string) (lf : ndarray A) :
  shape (weight_of area_type lf) = shape lf.
Proof. unfold weight_of. destruct (String.eqb area_type "land"); reflexivity. Qed.

(** What [multiply] returns when it returns. *)
Lemma multiply_spec (a b d : ndarray A) :
  multiply a b = Some d ->
  broadcast_shapes (shape a) (shape b) = Some (shape d)
  /\ dtype d = result_type (dtype a) (dtype b)
  /\ forall idx, item d idx = smul (item a (bindex (shape a) idx))
                                   (item b (bindex (shape b) idx)).
Proof.
  unfold multiply. destruct (broadcast_shapes (shape a) (shape b)) as [s|];
    [|discriminate].
  intros [= <-]. simpl. repeat split.
Qed.

Lemma multiply_defined (a b : ndarray A) :
  _shape_is_broadcastable (shape b) (shape a) = true ->
  exists d, multiply a b = Some d.
Proof.
  intros Hb. destruct (broadcast_shapes_defined _ _ Hb) as [s Hs].
  unfold multiply. rewrite Hs. eexists; reflexivity.
Qed.
End ArrayFacts.

(** ** The two outcomes of the resolution and the four of the weighting *)

Section WeightingFacts.
Context {A : Type} `{Scalar A}.

Lemma valid_area_type_cases (area_type : string) :
  valid_area_type area_type = true -> area_type = "land" \/ area_type = "sea".
Proof.
  unfold valid_area_type. intros Hv. apply orb_true_iff in Hv as [Hv|Hv];
    apply String.eqb_eq in Hv; auto.
Qed.

(** A resolved fraction comes from the first usable entry. *)
Lemma resolved_inv (cube : ref) (fx_files : fx_files_t) (w w1 : World A)
    (lf : ndarray A) (errors : list string) :
  _get_land_fraction cube fx_files w = (Return (Some lf, errors), w1) ->
  exists pre v p path post,
    fx_files = pre ++ (v, p) :: post
    /\ existsb (usable w (cube_shape (store w cube))) pre = false
    /\ usable w (cube_shape (store w cube)) (v, p) = true
    /\ source_of p = Some path
    /\ lf = fraction_from v (files w path)
    /\ errors = map (diagnostic w (store w cube)) pre
    /\ w1 = add_trace w (flat_map loads_of pre ++ [Load path]).
Proof.
  unfold _get_land_fraction. intros Hrun.
  destruct (for_cases cube fx_files (initial_errors fx_files) w)
    as [(pre & v & p & path & post & Hfx & Hpre & Hu & Hp & Heq)|[_ Heq]];
    unfold initial_errors in Heq; rewrite Heq in Hrun; [|discriminate].
  injection Hrun as <- <- <-.
  exists pre, v, p, path, post. repeat split; try assumption.
  rewrite Hfx. destruct pre; reflexivity.
Qed.

(** No fraction is resolved exactly when no entry is usable. *)
Lemma absent_inv (cube : ref) (fx_files : fx_files_t) (w w1 : World A)
    (errors : list string) :
  _get_land_fraction cube fx_files w = (Return (None, errors), w1) ->
  existsb (usable w (cube_shape (store w cube))) fx_files = false
  /\ errors = initial_errors fx_files
              ++ map (diagnostic w (store w cube)) fx_files
  /\ w1 = add_trace w (flat_map loads_of fx_files).
Proof.
  unfold _get_land_fraction. intros Hrun.
  destruct (for_cases cube fx_files (initial_errors fx_files) w)
    as [(pre & v & p & path & post & Hfx & Hpre & Hu & Hp & Heq)|[Hnone Heq]];
    unfold initial_errors in Heq; rewrite Heq in Hrun; [discriminate|].
  injection Hrun as <- <-. repeat split. exact Hnone.
Qed.

(** In the embedding, where every given path loads, the resolution
    returns, and it only adds loads to the trace. *)
Lemma get_land_fraction_returns (cube : ref) (fx_files : fx_files_t)
    (w : World A) :
  exists r evs,
    _get_land_fraction cube fx_files w = (Return r, add_trace w evs)
    /\ forallb is_load evs = true.
Proof.
  unfold _get_land_fraction.
  destruct (for_cases cube fx_files (initial_errors fx_files) w)
    as [(pre & v & p & path & post & Hfx & Hpre & Hu & Hp & Heq)|[Hnone Heq]];
    unfold initial_errors in Heq; rewrite Heq; do 2 eexists;
    (split; [reflexivity|]).
  - rewrite forallb_app, loads_of_are_loads. reflexivity.
  - apply loads_of_are_loads.
Qed.

(** The fraction of a usable entry can be multiplied with the target. *)
Lemma usable_multiply (w : World A) (c : Cube A) (v : string)
    (p : option string) (path area_type : string) :
  usable w (cube_shape c) (v, p) = true ->
  source_of p = Some path ->
  exists d, multiply (core_data c)
                     (weight_of area_type (fraction_from v (files w path)))
            = Some d.
Proof.
  unfold usable. simpl. intros Hu Hp. rewrite Hp in Hu.
  apply andb_true_iff in Hu as [Hshape _].
  apply multiply_defined.
  rewrite shape_weight_of, shape_fraction_from. exact Hshape.
Qed.

Lemma weighting_invalid (cube : ref) (fx_files : fx_files_t)
    (area_type : string) (strict : bool) (w : World A) :
  valid_area_type area_type = false ->
  weighting_landsea_fraction cube fx_files area_type strict w =
  (Raise (TypeError (msg_type_error area_type)), w).
Proof.
  unfold weighting_landsea_fraction, valid_area_type. intros ->. reflexivity.
Qed.

Lemma weighting_absent (cube : ref) (fx_files : fx_files_t)
    (area_type : string) (strict : bool) (w w1 : World A)
    (errors : list string) :
  valid_area_type area_type = true ->
  _get_land_fraction cube fx_files w = (Return (None, errors), w1) ->
  weighting_landsea_fraction cube fx_files area_type strict w =
  if strict then (Raise (ValueError (msg_value_error errors)), w1)
  else (Return cube,
        add_trace w1 [Debug (msg_debug (var_name (store w1 cube))
                                       area_type errors)]).
Proof.
  unfold weighting_landsea_fraction, valid_area_type. intros -> Hrun.
  unfold bind at 1. simpl. rewrite Hrun. destruct strict; reflexivity.
Qed.

(** What the setter of [cube.data] does. *)
Lemma set_data_spec (r : ref) (d : ndarray A) (w : World A) :
  set_data r d w =
  if setter_accepts (cube_shape (store w r)) (shape d)
  then (Return tt, update_data w r d)
  else (Raise (ValueError (msg_require_shape (cube_shape (store w r)) (shape d))),
        w).
Proof.
  unfold set_data, setter_accepts.
  destruct (shape_eqb (cube_shape (store w r)) (shape d)),
           (is_nil (cube_shape (store w r))),
           (shape_eqb (shape d) [1]); reflexivity.
Qed.

(** With a resolved fraction the call ends in the assignment of the
    product. *)
Lemma weighting_resolved (cube : ref) (fx_files : fx_files_t)
    (area_type : string) (strict : bool) (w w1 : World A)
    (lf d : ndarray A) (errors : list string) :
  valid_area_type area_type = true ->
  _get_land_fraction cube fx_files w = (Return (Some lf, errors), w1) ->
  multiply (core_data (store w1 cube)) (weight_of area_type lf) = Some d ->
  weighting_landsea_fraction cube fx_files area_type strict w =
  if setter_accepts (cube_shape (store w1 cube)) (shape d)
  then (Return cube, update_data w1 cube d)
  else (Raise (ValueError
                 (msg_require_shape (cube_shape (store w1 cube)) (shape d))),
        w1).
Proof.
  intros Hv Hrun Hmul.
  unfold weighting_landsea_fraction. fold (valid_area_type area_type).
  rewrite Hv. unfold bind at 1. simpl. rewrite Hrun.
  destruct (valid_area_type_cases _ Hv) as [-> | ->];
    unfold weight_of in Hmul; simpl in Hmul;
    unfold bind, deref, assign_product, ret; simpl;
    rewrite Hmul, set_data_spec;
    destruct (setter_accepts (cube_shape (store w1 cube)) (shape d));
    reflexivity.
Qed.

(** The product with a resolved fraction is defined, and the outcome of the
    call is the outcome of its assignment. *)
Lemma weighting_resolved_outcome (cube : ref) (fx_files : fx_files_t)
    (area_type : string) (strict : bool) (w w1 : World A)
    (lf : ndarray A) (errors : list string) :
  valid_area_type area_type = true ->
  _get_land_fraction cube fx_files w = (Return (Some lf, errors), w1) ->
  exists d,
    multiply (core_data (store w cube)) (weight_of area_type lf) = Some d
    /\ weighting_landsea_fraction cube fx_files area_type strict w =
       if setter_accepts (cube_shape (store w cube)) (shape d)
       then (Return cube, update_data w1 cube d)
       else (Raise (ValueError
                      (msg_require_shape (cube_shape (store w cube)) (shape d))),
             w1).
Proof.
  intros Hv Hrun.
  destruct (resolved_inv _ _ _ _ _ _ Hrun)
    as (pre & v & p & path & post & Hfx & Hpre & Hu & Hp & Hlf & Herr & Hw1).
  destruct (usable_multiply w (store w cube) v p path area_type Hu Hp)
    as [d Hmul].
  rewrite <- Hlf in Hmul. exists d. split; [exact Hmul|].
  rewrite (weighting_resolved cube fx_files area_type strict w w1 lf d errors
             Hv Hrun) by (rewrite Hw1; exact Hmul).
  rewrite Hw1. reflexivity.
Qed.

Lemma shape_eqb_refl (s : shape_t) : shape_eqb s s = true.
Proof.
  induction s as [|n s IH]; [reflexivity|].
  simpl. rewrite Nat.eqb_refl, IH. reflexivity.
Qed.

Lemma shape_eqb_eq (s1 s2 : shape_t) : shape_eqb s1 s2 = true -> s1 = s2.
Proof.
  revert s2. induction s1 as [|m s1 IH]; intros [|n s2] Heq; simpl in Heq;
    try discriminate; [reflexivity|].
  apply andb_true_iff in Heq as [Hmn Heq]. apply Nat.eqb_eq in Hmn.
  f_equal; [exact Hmn|apply IH; exact Heq].
Qed.

(** The shapes for which the setter accepts the data. *)
Lemma setter_accepts_cases (cube_s data_s : shape_t) :
  setter_accepts cube_s data_s = true ->
  data_s = cube_s \/ (cube_s = [] /\ data_s = [1]).
Proof.
  unfold setter_accepts. intros Ha. apply orb_true_iff in Ha as [Ha|Ha].
  - left. symmetry. apply shape_eqb_eq. exact Ha.
  - right. apply andb_true_iff in Ha as [Hnil Hone].
    split; [destruct cube_s; [reflexivity|discriminate]|].
    apply shape_eqb_eq. exact Hone.
Qed.

(** With a fraction whose shape broadcasts to the target's the product has
    the target's shape and the call returns the cube. *)
Lemma weighting_resolved_returns (cube : ref) (fx_files : fx_files_t)
    (area_type : string) (strict : bool) (w w1 : World A)
    (lf : ndarray A) (errors : list string) :
  valid_area_type area_type = true ->
  _get_land_fraction cube fx_files w = (Return (Some lf, errors), w1) ->
  shape_broadcasts_to (shape lf) (cube_shape (store w cube)) = true ->
  exists d,
    multiply (core_data (store w cube)) (weight_of area_type lf) = Some d
    /\ shape d = cube_shape (store w cube)
    /\ weighting_landsea_fraction cube fx_files area_type strict w =
       (Return cube, update_data w1 cube d).
Proof.
  intros Hv Hrun Hto.
  destruct (weighting_resolved_outcome cube fx_files area_type strict
              w w1 lf errors Hv Hrun) as (d & Hmul & Hret).
  assert (Hshape : shape d = cube_shape (store w cube)).
  { pose proof Hmul as Hm. apply multiply_spec in Hm as (Hs & _ & _).
    rewrite shape_weight_of in Hs. apply broadcast_shapes_to in Hto.
    unfold cube_shape in *. unfold core_data in Hs.
    rewrite Hto in Hs. injection Hs as <-. reflexivity. }
  exists d. split; [exact Hmul|]. split; [exact Hshape|].
  rewrite Hret. unfold setter_accepts.
  rewrite Hshape, shape_eqb_refl. reflexivity.
Qed.

(** A call that returns with a resolved fraction has stored the product. *)
Lemma weighting_returned_inv (cube : ref) (fx_files : fx_files_t)
    (area_type : string) (strict : bool) (w w1 w' : World A)
    (lf : ndarray A) (errors : list string) (r : ref) :
  valid_area_type area_type = true ->
  _get_land_fraction cube fx_files w = (Return (Some lf, errors), w1) ->
  weighting_landsea_fraction cube fx_files area_type strict w = (Return r, w') ->
  r = cube
  /\ exists d,
      multiply (core_data (store w cube)) (weight_of area_type lf) = Some d
      /\ w' = update_data w1 cube d
      /\ (shape d = cube_shape (store w cube)
          \/ (cube_shape (store w cube) = [] /\ shape d = [1])).
Proof.
  intros Hv Hrun Hret.
  destruct (weighting_resolved_outcome cube fx_files area_type strict
              w w1 lf errors Hv Hrun) as (d & Hmul & Hout).
  rewrite Hout in Hret.
  destruct (setter_accepts (cube_shape (store w cube)) (shape d)) eqn:Hacc;
    [|discriminate].
  injection Hret as <- <-. split; [reflexivity|].
  exists d. split; [exact Hmul|]. split; [reflexivity|].
  apply setter_accepts_cases. exact Hacc.
Qed.

(** A call with a resolved fraction that does not return leaves the world
    as the resolution left it and raises the error of the setter. *)
Lemma weighting_rejected_inv (cube : ref) (fx_files : fx_files_t)
    (area_type : string) (strict : bool) (w w1 w' : World A)
    (lf : ndarray A) (errors : list string) (e : exn) :
  valid_area_type area_type = true ->
  _get_land_fraction cube fx_files w = (Return (Some lf, errors), w1) ->
  weighting_landsea_fraction cube fx_files area_type strict w = (Raise e, w') ->
  w' = w1
  /\ exists data_s,
      e = ValueError (msg_require_shape (cube_shape (store w cube)) data_s).
Proof.
  intros Hv Hrun Hret.
  destruct (weighting_resolved_outcome cube fx_files area_type strict
              w w1 lf errors Hv Hrun) as (d & Hmul & Hout).
  rewrite Hout in Hret.
  destruct (setter_accepts (cube_shape (store w cube)) (shape d));
    [discriminate|].
  injection Hret as <- <-. split; [reflexivity|]. eexists. reflexivity.
Qed.

(** Broadcasting written from the left. *)
Lemma bindex_trailing (fs : shape_t) (idx : list nat) :
  length fs <= length idx -> bindex fs idx = trailing_index fs idx.
Proof.
  intros Hlen. unfold bindex, trailing_index.
  destruct (@split_at_length _ idx (length idx - length fs))
    as (hd & tl & -> & Hhd); [lia|].
  rewrite length_app in *.
  replace (length hd + length tl - length fs) with (length hd) by lia.
  assert (Htl : length fs = length tl) by lia.
  rewrite skipn_app, skipn_all, Nat.sub_diag. cbn [skipn app].
  rewrite rev_app_distr.
  rewrite combine_short_l by (rewrite !length_rev; exact Htl).
  rewrite combine_rev_same by exact Htl.
  rewrite map_rev, rev_involutive. reflexivity.
Qed.

Lemma shape_broadcasts_to_length (fs ts : shape_t) :
  shape_broadcasts_to fs ts = true -> length fs <= length ts.
Proof.
  unfold shape_broadcasts_to. intros Hb.
  apply andb_true_iff in Hb as [Hlen _]. apply Nat.leb_le. exact Hlen.
Qed.

Lemma valid_index_length (s : shape_t) (idx : list nat) :
  valid_index s idx -> length idx = length s.
Proof. intros Hv. eapply Forall2_length. exact Hv. Qed.

End WeightingFacts.

(** ** The weighting that is applied *)

Section Applied.
Context {A : Type} `{Scalar A}.

Lemma usable_var (w : World A) (target : shape_t) (v : string)
    (p : option string) :
  usable w target (v, p) = true -> v = "sftlf" \/ v = "sftof".
Proof.
  unfold usable. simpl. destruct (source_of p); [|discriminate].
  intros Hu. apply andb_true_iff in Hu as [_ Hv].
  apply orb_true_iff in Hv as [Hv|Hv]; apply String.eqb_eq in Hv; auto.
Qed.

Lemma store_update_same (w : World A) (r : ref) (d : ndarray A) :
  store (update_data w r d) r = with_data (store w r) d.
Proof. simpl. rewrite Nat.eqb_refl. reflexivity. Qed.

Lemma store_update_other (w : World A) (r r' : ref) (d : ndarray A) :
  r' <> r -> store (update_data w r d) r' = store w r'.
Proof. intros Hne. simpl. apply Nat.eqb_neq in Hne. rewrite Hne. reflexivity. Qed.

End Applied.


(** ** Shape and dtype of the weighted data *)

Lemma float_result_idem (d : dtype_t) :
  float_result (float_result d) = float_result d.
Proof. destruct d; reflexivity. Qed.


Section ShapeDtype.
Context {A : Type} `{Scalar A}.

Lemma dtype_fraction_from (v : string) (c : Cube A) :
  dtype (fraction_from v c) = float_result (dtype (data c)).
Proof.
  unfold fraction_from. destruct (String.eqb v "sftlf"); simpl;
    [reflexivity|apply float_result_idem].
Qed.


End ShapeDtype.



(** ** Failures *)

Section Failures.
Context {A : Type} `{Scalar A}.

Lemma require_shape_not_unavailable (cube_s data_s : shape_t) :
  ~ weighting_unavailable (ValueError (msg_require_shape cube_s data_s)).
Proof.
  intros [rest Hrest]. unfold msg_require_shape in Hrest.
  simpl in Hrest. discriminate Hrest.
Qed.

(** C3: with a valid [area_type] the call raises the failure of the module
    (the [ValueError] whose message starts with the explanation that the
    weighting is not possible) exactly when [strict] is true and no
    fraction is resolved; its message is the explanation followed by the
    diagnostics joined with spaces; an entry without a file or with a
    shape that fails the check is not raised on its own: it adds its
    diagnostic and the loop goes on with the next entry; with no fx files
    and [strict] the call raises. *)
Theorem value_error_iff_strict_and_absent (cube : ref)
    (fx_files : fx_files_t) (area_type : string) (strict : bool)
    (w : World A) :
  valid_area_type area_type = true ->
  ((exists e,
       fst (weighting_landsea_fraction cube fx_files area_type strict w)
       = Raise e /\ weighting_unavailable e)
   <-> (strict = true
        /\ exists errors w1,
            _get_land_fraction cube fx_files w = (Return (None, errors), w1)))
  /\ (forall errors w1,
         strict = true ->
         _get_land_fraction cube fx_files w = (Return (None, errors), w1) ->
         weighting_landsea_fraction cube fx_files area_type strict w =
         (Raise (ValueError
                   (String.append
                      "Weighting with land/sea fraction is not possible, the following errors occured: "
                      (join " " errors))), w1))
  /\ (forall v p rest errors,
         (source_of p = None ->
          _get_land_fraction_for cube ((v, p) :: rest) errors w =
          _get_land_fraction_for cube rest
            (errors ++ [String.append "File for '"
                          (String.append v "' not found.")]) w)
         /\ (forall path,
                source_of p = Some path ->
                _shape_is_broadcastable (cube_shape (files w path))
                                        (cube_shape (store w cube)) = false ->
                _get_land_fraction_for cube ((v, p) :: rest) errors w =
                _get_land_fraction_for cube rest
                  (errors ++ [msg_not_broadcastable v
                                (cube_shape (files w path))
                                (var_name (store w cube))
                                (cube_shape (store w cube))])
                  (add_trace w [Load path])))
  /\ weighting_landsea_fraction cube [] area_type true w =
     (Raise (ValueError (msg_value_error ["No fx files given."])), w).
Proof.
  intros Hv. split; [|split; [|split]].
  - destruct (get_land_fraction_returns cube fx_files w)
      as ([[lf|] errors] & evs & Hrun & _).
    + destruct (weighting_resolved_outcome cube fx_files area_type strict
                  w _ lf errors Hv Hrun) as (d & _ & Hout).
      rewrite Hout. split.
      * intros (e & He & Hun).
        destruct (setter_accepts (cube_shape (store w cube)) (shape d));
          cbn [fst] in He; [discriminate He|].
        injection He as <-. exfalso.
        exact (require_shape_not_unavailable _ _ Hun).
      * intros (_ & errors' & w1 & Hnone). rewrite Hrun in Hnone.
        discriminate Hnone.
    + rewrite (weighting_absent cube fx_files area_type strict w _ errors
                 Hv Hrun).
      destruct strict; split.
      * intros _. split; [reflexivity|eauto].
      * intros _. eexists. split; [reflexivity|].
        exists (join " " errors). reflexivity.
      * intros (e & He & _). discriminate He.
      * intros [Hs _]. discriminate Hs.
  - intros errors w1 -> Hrun.
    rewrite (weighting_absent cube fx_files area_type true w w1 errors
               Hv Hrun). reflexivity.
  - intros v p rest errors. split.
    + intros Hp.
      rewrite (for_continue cube (v, p) rest errors w)
        by (unfold usable; cbn [snd]; rewrite Hp; reflexivity).
      unfold diagnostic, loads_of. cbn [fst snd]. rewrite Hp.
      rewrite add_trace_nil. reflexivity.
    + intros path Hp Hshape.
      rewrite (for_continue cube (v, p) rest errors w)
        by (unfold usable; cbn [snd]; rewrite Hp, Hshape; reflexivity).
      unfold diagnostic, loads_of. cbn [fst snd]. rewrite Hp, Hshape.
      reflexivity.
  - rewrite (weighting_absent cube [] area_type true w w [msg_no_files] Hv);
      reflexivity.
Qed.

(** C4: an [area_type] other than ['land'] and ['sea'] raises the
    [TypeError] with the world as it was: nothing is loaded, logged or
    changed, whatever [fx_files] and [strict] are. *)
Theorem type_error_before_resolution (cube : ref) (fx_files : fx_files_t)
    (area_type : string) (strict : bool) (w : World A) :
  area_type <> "land" ->
  area_type <> "sea" ->
  weighting_landsea_fraction cube fx_files area_type strict w =
  (Raise (TypeError (String.append
                       "Expected 'land' or 'sea' for area_type, got '"
                       (String.append area_type "'"))), w).
Proof.
  intros Hland Hsea. apply weighting_invalid.
  unfold valid_area_type.
  apply String.eqb_neq in Hland. apply String.eqb_neq in Hsea.
  rewrite Hland, Hsea. reflexivity.
Qed.
End Failures.

Lemma value_error_iff_strict_and_absent_witness :
  weighting_landsea_fraction 0 [("sftlf", Some "sftlf_4.nc"); ("sftof", None)]
    "land" true Demo.w0 =
  (Raise (ValueError
            "Weighting with land/sea fraction is not possible, the following errors occured: Cube 'sftlf' with shape (4,) not broadcastable to cube 'nbp' with shape (2, 3). File for 'sftof' not found."),
   add_trace Demo.w0 [Load "sftlf_4.nc"]).
Proof.
  destruct (value_error_iff_strict_and_absent 0
              [("sftlf", Some "sftlf_4.nc"); ("sftof", None)] "land" true
              Demo.w0 eq_refl) as (_ & Hmsg & _).
  exact (Hmsg _ _ eq_refl eq_refl).
Defined.

Lemma type_error_before_resolution_witness :
  weighting_landsea_fraction 0 [("sftlf", Some "sftlf.nc")] "ocean" false Demo.w0 =
  (Raise (TypeError "Expected 'land' or 'sea' for area_type, got 'ocean'"),
   Demo.w0).
Proof.
  apply (type_error_before_resolution 0 [("sftlf", Some "sftlf.nc")] "ocean"
           false Demo.w0); discriminate.
Defined.

(** ** The call that does not weight *)

Lemma append_assoc (a b c : string) :
  String.append (String.append a b) c = String.append a (String.append b c).
Proof. induction a as [|x a IH]; simpl; [reflexivity|]. rewrite IH. reflexivity. Qed.

Lemma append_empty_r (a : string) : String.append a "" = a.
Proof. induction a as [|x a IH]; simpl; [reflexivity|]. rewrite IH. reflexivity. Qed.

Lemma contains_here (a t b : string) :
  contains (String.append a (String.append t b)) t.
Proof. exists a, b. reflexivity. Qed.

Lemma contains_after (a s t : string) :
  contains s t -> contains (String.append a s) t.
Proof.
  intros (x & y & ->). exists (String.append a x), y.
  rewrite append_assoc. reflexivity.
Qed.

Lemma contains_end (a t : string) : contains (String.append a t) t.
Proof. exists a, ""%string. rewrite append_empty_r. reflexivity. Qed.

Lemma msg_debug_contains (cube_name area_type : string) (errors : list string) :
  contains (msg_debug cube_name area_type errors) cube_name
  /\ contains (msg_debug cube_name area_type errors) area_type
  /\ contains (msg_debug cube_name area_type errors) (join " " errors).
Proof.
  unfold msg_debug. repeat split.
  - apply contains_here.
  - do 2 apply contains_after. apply contains_here.
  - do 4 apply contains_after. apply contains_end.
Qed.

Lemma msg_value_error_contains (errors : list string) :
  contains (msg_value_error errors) (join " " errors).
Proof. apply contains_end. Qed.

Section Lenient.
Context {A : Type} `{Scalar A}.

(** C5: with a valid [area_type], [strict] false and no fraction
    resolved, the call returns the reference it was given, no object of
    the store is changed, and the events of the call are the loads of the
    resolution followed by one debug record, which names the cube, the
    area type and the joined diagnostics. *)
Theorem lenient_absent_returns_unmodified (cube : ref)
    (fx_files : fx_files_t) (area_type : string) (w w1 : World A)
    (errors : list string) :
  valid_area_type area_type = true ->
  _get_land_fraction cube fx_files w = (Return (None, errors), w1) ->
  let msg :=
    String.append "Weighting of '" (String.append (var_name (store w cube))
      (String.append "' with '" (String.append area_type
      (String.append "' fraction not possible because of the following problems: "
                     (join " " errors))))) in
  let run := weighting_landsea_fraction cube fx_files area_type false w in
  fst run = Return cube
  /\ store (snd run) = store w
  /\ files (snd run) = files w
  /\ (exists loads,
         trace (snd run) = trace w ++ loads ++ [Debug msg]
         /\ forallb is_load loads = true)
  /\ contains msg (var_name (store w cube))
  /\ contains msg area_type
  /\ contains msg (join " " errors).
Proof.
  intros Hv Hrun msg run.
  destruct (absent_inv _ _ _ _ _ Hrun) as (_ & _ & Hw1).
  unfold run.
  rewrite (weighting_absent cube fx_files area_type false w w1 errors Hv Hrun).
  rewrite Hw1. cbn [fst snd add_trace store files trace].
  split; [reflexivity|]. split; [reflexivity|]. split; [reflexivity|].
  split.
  - exists (flat_map loads_of fx_files). split.
    + rewrite <- app_assoc. reflexivity.
    + apply loads_of_are_loads.
  - apply msg_debug_contains.
Qed.
End Lenient.

Lemma lenient_absent_returns_unmodified_witness :
  let run := weighting_landsea_fraction 0 [("areacello", Some "areacello.nc")]
               "sea" false Demo.w0 in
  fst run = Return 0
  /\ store (snd run) = store Demo.w0
  /\ trace (snd run) =
     [Load "areacello.nc";
      Debug "Weighting of 'nbp' with 'sea' fraction not possible because of the following problems: Cannot calculate land fraction from 'areacello', expected 'sftlf' or 'sftof'."].
Proof.
  intros run.
  destruct (lenient_absent_returns_unmodified 0
              [("areacello", Some "areacello.nc")] "sea" Demo.w0
              (add_trace Demo.w0 [Load "areacello.nc"])
              [msg_cannot_calculate "areacello"] eq_refl eq_refl)
    as (Hret & Hstore & _).
  split; [exact Hret|]. split; [exact Hstore|reflexivity].
Defined.

(** ** Order of the candidates *)

Section Order.
Context {A : Type} `{Scalar A}.

(** C6: the entries are examined in the order of the mapping and the
    first usable one wins: when no entry before it is usable, an entry
    with a path, a shape that passes the check and the variable [sftlf]
    or [sftof] gives the fraction, element by element [data / 100.0] for
    [sftlf] and [1.0 - data / 100.0] for [sftof]; the result does not
    depend on the later entries; when the weighting is applied (the call
    returns) the loads are those of the entries before the winner and its
    own, none of a later entry, and the stored data is the original data
    times the weight from this fraction; a winner whose shape broadcasts
    to the target's is always applied, and for [sftlf] and [land] the
    element at an index of the target is then the original element times
    the file's element at the trailing index divided by 100. *)
Theorem first_usable_entry_wins (cube : ref) (pre post : fx_files_t)
    (v : string) (p : option string) (path : string) (area_type : string)
    (strict : bool) (w : World A) :
  existsb (usable w (cube_shape (store w cube))) pre = false ->
  source_of p = Some path ->
  _shape_is_broadcastable (cube_shape (files w path))
                          (cube_shape (store w cube)) = true ->
  v = "sftlf" \/ v = "sftof" ->
  valid_area_type area_type = true ->
  let lf := fraction_from v (files w path) in
  let w1 := add_trace w (flat_map loads_of pre ++ [Load path]) in
  let orig := data (store w cube) in
  let run := weighting_landsea_fraction cube (pre ++ (v, p) :: post)
               area_type strict w in
  let new := data (store (snd run) cube) in
  _get_land_fraction cube (pre ++ (v, p) :: post) w =
  (Return (Some lf, map (diagnostic w (store w cube)) pre), w1)
  /\ (forall post',
         _get_land_fraction cube (pre ++ (v, p) :: post') w =
         _get_land_fraction cube (pre ++ (v, p) :: post) w)
  /\ shape lf = cube_shape (files w path)
  /\ (v = "sftlf" ->
      lf = true_divide (core_data (files w path)) lit_100
      /\ forall idx,
          item lf idx = sdiv (item (data (files w path)) idx) lit_100)
  /\ (v = "sftof" ->
      lf = rsubtract lit_1 (true_divide (core_data (files w path)) lit_100)
      /\ forall idx,
          item lf idx =
          ssub lit_1 (sdiv (item (data (files w path)) idx) lit_100))
  /\ (forall r,
         fst run = Return r ->
         r = cube
         /\ trace (snd run) = trace w ++ flat_map loads_of pre ++ [Load path]
         /\ (area_type = "land" ->
             forall idx,
               item new idx =
               smul (item orig (bindex (shape orig) idx))
                    (item lf (bindex (shape lf) idx)))
         /\ (area_type = "sea" ->
             forall idx,
               item new idx =
               smul (item orig (bindex (shape orig) idx))
                    (ssub lit_1 (item lf (bindex (shape lf) idx)))))
  /\ (shape_broadcasts_to (cube_shape (files w path)) (shape orig) = true ->
      fst run = Return cube
      /\ (v = "sftlf" -> area_type = "land" ->
          forall idx,
            valid_index (shape orig) idx ->
            item new idx =
            smul (item orig idx)
                 (sdiv (item (data (files w path))
                             (trailing_index (cube_shape (files w path)) idx))
                       lit_100))).
Proof.
  intros Hpre Hp Hshape Hvar Hv lf w1 orig run new.
  assert (Hu : usable w (cube_shape (store w cube)) (v, p) = true).
  { unfold usable. simpl. rewrite Hp, Hshape.
    destruct Hvar as [-> | ->]; reflexivity. }
  assert (Hrun : forall post',
             _get_land_fraction cube (pre ++ (v, p) :: post') w =
             (Return (Some lf, map (diagnostic w (store w cube)) pre), w1)).
  { intros post'. unfold _get_land_fraction.
    replace (match pre ++ (v, p) :: post' with
             | [] => [msg_no_files]
             | _ :: _ => []
             end) with (@nil string) by (destruct pre; reflexivity).
    rewrite for_skip_prefix by exact Hpre.
    rewrite (for_break cube v p path) by assumption.
    cbn [files store add_trace]. rewrite add_trace_app. reflexivity. }
  assert (Hlfshape : shape lf = cube_shape (files w path))
    by apply shape_fraction_from.
  split; [apply Hrun|]. split; [intros post'; rewrite !Hrun; reflexivity|].
  split; [exact Hlfshape|].
  split; [intros ->; split; [reflexivity|intros idx; reflexivity]|].
  split; [intros ->; split; [reflexivity|intros idx; reflexivity]|].
  split.
  - intros r Hr. unfold new. destruct run as [o w'] eqn:Hret.
    cbn [fst] in Hr. subst o.
    destruct (weighting_returned_inv cube (pre ++ (v, p) :: post) area_type
                strict w w1 w' lf _ r Hv (Hrun post) Hret)
      as (-> & d & Hmul & -> & _).
    split; [reflexivity|]. cbn [snd]. rewrite store_update_same.
    cbn [data with_data update_data trace]. split; [reflexivity|].
    apply multiply_spec in Hmul as (_ & _ & Hitem).
    rewrite shape_weight_of in Hitem.
    split; intros ->; intros idx; rewrite Hitem; reflexivity.
  - intros Hto. rewrite <- Hlfshape in Hto.
    destruct (weighting_resolved_returns cube (pre ++ (v, p) :: post)
                area_type strict w w1 lf _ Hv (Hrun post) Hto)
      as (d & Hmul & _ & Hret).
    unfold new, run. rewrite Hret. cbn [fst snd].
    split; [reflexivity|]. intros -> -> idx Hidx.
    rewrite store_update_same. cbn [data with_data].
    apply multiply_spec in Hmul as (_ & _ & Hitem). rewrite Hitem.
    unfold core_data. fold orig.
    rewrite (bindex_valid _ _ Hidx).
    change (weight_of "land" lf) with lf.
    rewrite bindex_trailing
      by (rewrite (valid_index_length _ _ Hidx);
          apply shape_broadcasts_to_length; exact Hto).
    rewrite Hlfshape. reflexivity.
Qed.
End Order.

Lemma first_usable_entry_wins_witness :
  let fx := [("areacello", Some "areacello.nc");
             ("sftlf", Some "sftlf_row.nc");
             ("sftof", Some "sftof.nc")] in
  let run := weighting_landsea_fraction 0 fx "land" true Demo.w0 in
  _get_land_fraction 0 fx Demo.w0 =
  (Return (Some (true_divide (core_data (Demo.disk "sftlf_row.nc")) lit_100),
           ["Cannot calculate land fraction from 'areacello', expected 'sftlf' or 'sftof'."]),
   add_trace Demo.w0 [Load "areacello.nc"; Load "sftlf_row.nc"])
  /\ trace (snd run) = [Load "areacello.nc"; Load "sftlf_row.nc"]
  /\ Qeq (item (data (store (snd run) 0)) [1; 2]) (13 * (3 / 100)).
Proof.
  intros fx run.
  destruct (first_usable_entry_wins 0 [("areacello", Some "areacello.nc")]
              [("sftof", Some "sftof.nc")] "sftlf" (Some "sftlf_row.nc")
              "sftlf_row.nc" "land" true Demo.w0 eq_refl eq_refl eq_refl
              (or_introl eq_refl) eq_refl)
    as (Hrun & _ & _ & _ & _ & Hret & Happlied).
  destruct (Happlied eq_refl) as (Hreturns & Hland).
  destruct (Hret 0 Hreturns) as (_ & Htrace & _).
  split; [exact Hrun|]. split; [exact Htrace|].
  cbn [app] in Hland. unfold run, fx.
  rewrite (Hland eq_refl eq_refl [1; 2]) by (repeat constructor).
  reflexivity.
Defined.

(** ** What becomes of the diagnostics *)

Section Diagnostics.
Context {A : Type} `{Scalar A}.

(** C8, as the code has it: with a valid [area_type], when no fraction is
    resolved the diagnostics reach the caller, in the message of the
    [ValueError] if [strict] and in a debug record otherwise; when a
    fraction is resolved the events of the call are loads only and the
    failure of the module is not raised, so the diagnostics of the entries
    that failed before the winning one are neither raised nor logged; with
    a fraction whose shape broadcasts to the target's the call returns the
    cube. *)
Theorem diagnostics_reported_when_absent (cube : ref)
    (fx_files : fx_files_t) (area_type : string) (strict : bool)
    (w : World A) :
  valid_area_type area_type = true ->
  let run := weighting_landsea_fraction cube fx_files area_type strict w in
  (forall errors w1,
      _get_land_fraction cube fx_files w = (Return (None, errors), w1) ->
      exists evs,
        trace (snd run) = trace w ++ evs
        /\ attached errors (fst run) evs
        /\ (strict = true ->
            fst run = Raise (ValueError (msg_value_error errors)))
        /\ (strict = false ->
            fst run = Return cube
            /\ In (Debug (msg_debug (var_name (store w cube)) area_type errors))
                  evs))
  /\ (forall lf errors w1,
         _get_land_fraction cube fx_files w = (Return (Some lf, errors), w1) ->
         (exists evs,
             trace (snd run) = trace w ++ evs
             /\ forallb is_load evs = true)
         /\ (forall e, fst run = Raise e -> ~ weighting_unavailable e)
         /\ (shape_broadcasts_to (shape lf) (cube_shape (store w cube)) = true ->
             fst run = Return cube)).
Proof.
  intros Hv run. split.
  - intros errors w1 Hrun.
    destruct (absent_inv _ _ _ _ _ Hrun) as (_ & _ & Hw1).
    unfold run.
    rewrite (weighting_absent cube fx_files area_type strict w w1 errors
               Hv Hrun).
    rewrite Hw1. destruct strict; cbn [fst snd add_trace store files trace].
    + exists (flat_map loads_of fx_files). split; [reflexivity|]. split.
      * left. eexists. split; [reflexivity|apply msg_value_error_contains].
      * split; [reflexivity|discriminate].
    + exists (flat_map loads_of fx_files
              ++ [Debug (msg_debug (var_name (store w cube)) area_type errors)]).
      split; [rewrite app_assoc; reflexivity|]. split.
      * right. eexists. split; [apply in_elt|apply msg_debug_contains].
      * split; [discriminate|]. intros _. split; [reflexivity|apply in_elt].
  - intros lf errors w1 Hrun.
    destruct (weighting_resolved_outcome cube fx_files area_type strict
                w w1 lf errors Hv Hrun) as (d & _ & Hout).
    destruct (resolved_inv _ _ _ _ _ _ Hrun)
      as (pre & v & p & path & post & _ & _ & _ & _ & _ & _ & Hw1).
    split; [|split].
    + unfold run. rewrite Hout, Hw1.
      exists (flat_map loads_of pre ++ [Load path]).
      split; [destruct (setter_accepts _ _); reflexivity|].
      rewrite forallb_app, loads_of_are_loads. reflexivity.
    + intros e He. unfold run in He. rewrite Hout in He.
      destruct (setter_accepts (cube_shape (store w cube)) (shape d));
        cbn [fst] in He; [discriminate He|].
      injection He as <-. apply require_shape_not_unavailable.
    + intros Hto.
      destruct (weighting_resolved_returns cube fx_files area_type strict
                  w w1 lf errors Hv Hrun Hto) as (d' & _ & _ & Hret).
      unfold run. rewrite Hret. reflexivity.
Qed.
End Diagnostics.

Lemma diagnostics_reported_when_absent_witness :
  let run := weighting_landsea_fraction 0 [("sftlf", None)] "land" false
               Demo.w0 in
  exists evs,
    trace (snd run) = trace Demo.w0 ++ evs
    /\ attached ["File for 'sftlf' not found."] (fst run) evs.
Proof.
  intros run.
  destruct (diagnostics_reported_when_absent 0 [("sftlf", None)] "land" false
              Demo.w0 eq_refl) as (Habsent & _).
  destruct (Habsent ["File for 'sftlf' not found."] Demo.w0 eq_refl)
    as (evs & Htrace & Hatt & _).
  exists evs. split; assumption.
Defined.

(** C8 as stated fails: the first entry has no file, the second one gives
    the fraction, and the diagnostic of the first is neither raised nor
    logged, with [strict] or without. *)
Lemma diagnostics_dropped_counterexample :
  let fx := [("sftof", None); ("sftlf", Some "sftlf.nc")] in
  let errors := ["File for 'sftof' not found."] in
  _get_land_fraction 0 fx Demo.w0 =
  (Return (Some (true_divide (core_data (Demo.disk "sftlf.nc")) lit_100), errors),
   add_trace Demo.w0 [Load "sftlf.nc"])
  /\ (let run := weighting_landsea_fraction 0 fx "land" false Demo.w0 in
      fst run = Return 0 /\ trace (snd run) = [Load "sftlf.nc"]
      /\ ~ attached errors (fst run) (trace (snd run)))
  /\ (let run := weighting_landsea_fraction 0 fx "land" true Demo.w0 in
      fst run = Return 0 /\ trace (snd run) = [Load "sftlf.nc"]
      /\ ~ attached errors (fst run) (trace (snd run))).
Proof.
  cbv zeta. split; [reflexivity|].
  split; (split; [reflexivity|]; split; [reflexivity|]);
    intros [(msg & Hraise & _)|(msg & Hin & _)];
    try discriminate Hraise;
    destruct Hin as [Hin|[]]; discriminate Hin.
Qed.

(** ** Land and sea weights add up *)

Lemma setter_accepts_intro (cube_s data_s : shape_t) :
  data_s = cube_s \/ (cube_s = [] /\ data_s = [1]) ->
  setter_accepts cube_s data_s = true.
Proof.
  unfold setter_accepts. intros [-> | [-> ->]].
  - rewrite shape_eqb_refl. reflexivity.
  - reflexivity.
Qed.

(** C9: over the exact rationals, for the same world, cube and fx files,
    and so the same resolved fraction: when the [land] weighting is
    applied (the call returns) the [sea] weighting is applied too, and the
    data after the [land] weighting plus the data after the [sea]
    weighting is the original data, element by element (the original
    element is the one that broadcasting reads, which for an index of the
    target is the element at that index). *)
Theorem land_plus_sea_is_original (cube : ref) (fx_files : fx_files_t)
    (strict_l strict_s : bool) (w w1 : World Q) (lf : ndarray Q)
    (errors : list string) (r : ref) :
  _get_land_fraction cube fx_files w = (Return (Some lf, errors), w1) ->
  let run_l := weighting_landsea_fraction cube fx_files "land" strict_l w in
  let run_s := weighting_landsea_fraction cube fx_files "sea" strict_s w in
  fst run_l = Return r ->
  let land := data (store (snd run_l) cube) in
  let sea := data (store (snd run_s) cube) in
  let orig := data (store w cube) in
  fst run_s = Return cube
  /\ (forall idx,
         Qeq (item land idx + item sea idx)
             (item orig (bindex (shape orig) idx)))
  /\ (forall idx,
         valid_index (shape orig) idx ->
         Qeq (item land idx + item sea idx) (item orig idx)).
Proof.
  intros Hrun run_l run_s Hr land sea orig.
  destruct run_l as [o wl] eqn:Hl. cbn [fst] in Hr. subst o.
  destruct (weighting_returned_inv cube fx_files "land" strict_l w w1 wl
              lf errors r eq_refl Hrun Hl) as (-> & dl & Hml & Hwl & Hshape).
  destruct (weighting_resolved_outcome cube fx_files "sea" strict_s
              w w1 lf errors eq_refl Hrun) as (ds & Hms & Hout).
  pose proof Hml as Hil. apply multiply_spec in Hil as (Hsl & _ & Hil).
  pose proof Hms as His. apply multiply_spec in His as (Hss & _ & His).
  rewrite shape_weight_of in Hsl, Hss. rewrite Hsl in Hss.
  injection Hss as Hss.
  assert (Hacc : setter_accepts (cube_shape (store w cube)) (shape ds) = true)
    by (apply setter_accepts_intro; rewrite <- Hss; exact Hshape).
  rewrite Hacc in Hout.
  assert (Hsum : forall idx,
             Qeq (item land idx + item sea idx)
                 (item orig (bindex (shape orig) idx))).
  { intros idx. unfold land, sea, run_s. rewrite Hwl, Hout. cbn [snd].
    rewrite !store_update_same. cbn [data with_data].
    rewrite Hil, His. unfold weight_of, core_data. simpl. fold orig. ring. }
  split; [unfold run_s; rewrite Hout; reflexivity|].
  split; [exact Hsum|].
  intros idx Hidx. rewrite Hsum, (bindex_valid _ _ Hidx). reflexivity.
Qed.

Lemma land_plus_sea_is_original_witness :
  let fx := [("sftlf", Some "sftlf_row.nc")] in
  let land := data (store (snd (weighting_landsea_fraction 0 fx "land" true Demo.w0)) 0) in
  let sea := data (store (snd (weighting_landsea_fraction 0 fx "sea" true Demo.w0)) 0) in
  Qeq (item land [1; 2]) (13 * (3 / 100))
  /\ Qeq (item land [1; 2] + item sea [1; 2]) 13.
Proof.
  intros fx land sea. split; [reflexivity|].
  destruct (land_plus_sea_is_original 0 fx true true Demo.w0
              (add_trace Demo.w0 [Load "sftlf_row.nc"])
              (fraction_from "sftlf" (Demo.disk "sftlf_row.nc")) [] 0
              eq_refl eq_refl)
    as (_ & _ & Hsum).
  apply (Hsum [1; 2]).
  repeat constructor.
Defined.

(** ** Fractions with more dimensions than the target *)

Section ExtraDimensions.
Context {A : Type} `{Scalar A}.

(** C10: a fraction of shape [p ++ s] passes the check against a target
    of shape [s], whatever the leading sizes [p]; as the first entry of
    the mapping, with a path and the variable [sftlf] or [sftof], it is
    the fraction that the resolution returns, and it has the rank of [p]
    more dimensions than the target. *)
Theorem extra_leading_dimensions_win (s p : shape_t) (cube : ref)
    (v path : string) (rest : fx_files_t) (w : World A) :
  cube_shape (store w cube) = s ->
  cube_shape (files w path) = p ++ s ->
  path <> ""%string ->
  v = "sftlf" \/ v = "sftof" ->
  _shape_is_broadcastable (p ++ s) s = true
  /\ exists lf,
      _get_land_fraction cube ((v, Some path) :: rest) w =
      (Return (Some lf, []), add_trace w [Load path])
      /\ shape lf = p ++ s
      /\ length (shape lf) = length p + length s
      /\ (p <> [] -> length s < length (shape lf)).
Proof.
  intros Hs Hfx Hpath Hvar.
  split; [apply broadcastable_extra_leading|].
  exists (fraction_from v (files w path)).
  assert (Hsrc : source_of (Some path) = Some path).
  { simpl. apply String.eqb_neq in Hpath. rewrite Hpath. reflexivity. }
  split.
  - unfold _get_land_fraction.
    apply for_break; [|exact Hsrc].
    unfold usable. cbn [fst snd]. rewrite Hsrc, Hs, Hfx.
    rewrite broadcastable_extra_leading.
    destruct Hvar as [-> | ->]; reflexivity.
  - rewrite shape_fraction_from, Hfx, length_app.
    split; [reflexivity|]. split; [reflexivity|].
    intros Hp. destruct p; [contradiction|]. simpl. lia.
Qed.
End ExtraDimensions.

Lemma extra_leading_dimensions_win_witness :
  cube_shape (store Demo.w0 0) = [2; 3]
  /\ exists lf,
      _get_land_fraction 0 [("sftlf", Some "sftlf_time.nc")] Demo.w0 =
      (Return (Some lf, []), add_trace Demo.w0 [Load "sftlf_time.nc"])
      /\ shape lf = [5; 2; 3].
Proof.
  split; [reflexivity|].
  destruct (extra_leading_dimensions_win [2; 3] [5] 0 "sftlf" "sftlf_time.nc"
              [] Demo.w0 eq_refl eq_refl) as (_ & lf & Hrun & Hshape & _).
  - discriminate.
  - left. reflexivity.
  - exists lf. split; [exact Hrun|exact Hshape].
Defined.

(** * Further properties of the shape check *)

Lemma combine_app_longer {X Y} (a c : list X) (b : list Y) :
  length b <= length a -> combine (a ++ c) b = combine a b.
Proof.
  revert b. induction a as [|x a IH]; intros [|y b] Hlen; simpl in *;
    try reflexivity; try lia.
  - destruct c; reflexivity.
  - f_equal. apply IH. lia.
Qed.

Lemma broadcast_rev_inv (r1 r2 r : list nat) :
  broadcast_rev r1 r2 = Some r ->
  forallb dims_compatible (combine r1 r2) = true
  /\ length r = Nat.max (length r1) (length r2).
Proof.
  revert r2 r. induction r1 as [|m r1 IH]; intros [|n r2] r Hr;
    cbn [broadcast_rev] in Hr.
  - injection Hr as <-. split; reflexivity.
  - injection Hr as <-. split; reflexivity.
  - injection Hr as <-. split; reflexivity.
  - cbn [combine forallb length].
    destruct (Nat.eqb_spec m n) as [Hmn|Hmn]; cbn [orb] in Hr.
    + destruct (broadcast_rev r1 r2) as [r'|] eqn:Hr'; [|discriminate].
      injection Hr as <-. destruct (IH r2 r' Hr') as [Hall Hlen].
      rewrite Hall, andb_true_r. split; [apply dims_compatible_spec; auto|].
      cbn [length]. lia.
    + destruct (Nat.eqb_spec n 1) as [Hn|Hn].
      * destruct (broadcast_rev r1 r2) as [r'|] eqn:Hr'; [|discriminate].
        injection Hr as <-. destruct (IH r2 r' Hr') as [Hall Hlen].
        rewrite Hall, andb_true_r. split; [apply dims_compatible_spec; auto|].
        cbn [length]. lia.
      * destruct (Nat.eqb_spec m 1) as [Hm|Hm]; [|discriminate].
        destruct (broadcast_rev r1 r2) as [r'|] eqn:Hr'; [|discriminate].
        injection Hr as <-. destruct (IH r2 r' Hr') as [Hall Hlen].
        rewrite Hall, andb_true_r. split; [apply dims_compatible_spec; auto|].
        cbn [length]. lia.
Qed.

(** X1: the check does not depend on the order of its two shapes. *)
Theorem shape_check_symmetric (shape_1 shape_2 : shape_t) :
  _shape_is_broadcastable shape_1 shape_2
  = _shape_is_broadcastable shape_2 shape_1.
Proof.
  unfold _shape_is_broadcastable.
  apply forallb_dims_swap.
Qed.

(** X2: the check accepts exactly the pairs of shapes that numpy
    broadcasts, and the broadcast shape has the larger of the two ranks. *)
Theorem shape_check_is_numpy_broadcasting (shape_1 shape_2 : shape_t) :
  (_shape_is_broadcastable shape_1 shape_2 = true
   <-> exists s, broadcast_shapes shape_1 shape_2 = Some s)
  /\ (forall s, broadcast_shapes shape_1 shape_2 = Some s ->
                length s = Nat.max (length shape_1) (length shape_2)).
Proof.
  split; [split|].
  - intros Hb. apply broadcast_shapes_defined.
    rewrite <- Hb. unfold _shape_is_broadcastable. apply forallb_dims_swap.
  - intros [s Hs]. unfold broadcast_shapes in Hs.
    destruct (broadcast_rev (rev shape_1) (rev shape_2)) as [r|] eqn:Hr;
      [|discriminate].
    apply broadcast_rev_inv in Hr as [Hall _]. exact Hall.
  - intros s Hs. unfold broadcast_shapes in Hs.
    destruct (broadcast_rev (rev shape_1) (rev shape_2)) as [r|] eqn:Hr;
      [|discriminate].
    injection Hs as <-. apply broadcast_rev_inv in Hr as [_ Hlen].
    rewrite !length_rev in *. exact Hlen.
Qed.

(** X3: only the trailing dimensions that both shapes have are compared:
    leading dimensions of the longer shape, of any sizes, do not change
    the result. *)
Theorem shape_check_ignores_leading (p shape_1 shape_2 : shape_t) :
  length shape_2 <= length shape_1 ->
  _shape_is_broadcastable (p ++ shape_1) shape_2
  = _shape_is_broadcastable shape_1 shape_2.
Proof.
  intros Hlen. unfold _shape_is_broadcastable.
  rewrite rev_app_distr.
  rewrite combine_app_longer by (rewrite !length_rev; exact Hlen).
  reflexivity.
Qed.

Lemma shape_check_ignores_leading_witness :
  _shape_is_broadcastable ([7; 9] ++ [2; 3]) [4; 3]
  = _shape_is_broadcastable [2; 3] [4; 3].
Proof.
  apply (shape_check_ignores_leading [7; 9] [2; 3] [4; 3]). simpl. lia.
Defined.

(** X4: every shape passes the check against itself, against the shape of
    a scalar and against a shape of ones of any rank. *)
Theorem shape_check_accepts (s : shape_t) (k : nat) :
  _shape_is_broadcastable s s = true
  /\ _shape_is_broadcastable [] s = true
  /\ _shape_is_broadcastable (repeat 1 k) s = true.
Proof.
  split; [|split].
  - apply forallb_dims_diag.
  - reflexivity.
  - unfold _shape_is_broadcastable. apply forallb_combine_nth.
    intros i m n Hm _. apply dims_compatible_spec. right. left.
    apply nth_error_In, in_rev in Hm.
    apply repeat_spec in Hm. exact Hm.
Qed.

(** * Further properties of the resolution and of the weighting *)

Section MoreResolution.
Context {A : Type} `{Scalar A}.

(** X5: when no fraction is resolved, the errors are the single message
    "No fx files given." for an empty mapping, and otherwise one
    diagnostic per entry of the mapping, in the order of the mapping. *)
Theorem absent_one_diagnostic_per_entry (cube : ref) (fx_files : fx_files_t)
    (w w1 : World A) (errors : list string) :
  _get_land_fraction cube fx_files w = (Return (None, errors), w1) ->
  (fx_files = [] -> errors = ["No fx files given."])
  /\ (fx_files <> [] ->
      length errors = length fx_files
      /\ forall i entry,
          nth_error fx_files i = Some entry ->
          nth_error errors i = Some (diagnostic w (store w cube) entry)).
Proof.
  intros Hrun. destruct (absent_inv _ _ _ _ _ Hrun) as (_ & Herr & _).
  split.
  - intros ->. exact Herr.
  - intros Hne. destruct fx_files as [|e fx]; [contradiction|].
    cbn [initial_errors app] in Herr. rewrite Herr. split.
    + apply length_map.
    + intros i entry Hi. rewrite nth_error_map, Hi. reflexivity.
Qed.

(** X6: when the resolution returns, it has changed nothing but the
    trace: it has loaded, in the order of the mapping, the files of the
    first [n] entries (one load for an entry with a path, none for an
    entry without), and of all entries when no fraction is resolved. *)
Theorem resolution_loads_in_order (cube : ref) (fx_files : fx_files_t)
    (w w1 : World A) (r : option (ndarray A) * list string) :
  _get_land_fraction cube fx_files w = (Return r, w1) ->
  exists n,
    w1 = add_trace w (flat_map loads_of (firstn n fx_files))
    /\ n <= length fx_files
    /\ (fst r = None -> n = length fx_files).
Proof.
  unfold _get_land_fraction. intros Hrun.
  destruct (for_cases cube fx_files (initial_errors fx_files) w)
    as [(pre & v & p & path & post & Hfx & Hpre & Hu & Hp & Heq)|[Hnone Heq]];
    unfold initial_errors in Heq; rewrite Heq in Hrun;
    injection Hrun as <- <-.
  - exists (length pre + 1). split; [|split].
    + assert (Hl : loads_of (v, p) = [Load path])
        by (unfold loads_of; cbn [snd]; rewrite Hp; reflexivity).
      rewrite Hfx. rewrite firstn_app, firstn_all2 by lia.
      replace (length pre + 1 - length pre) with 1 by lia.
      cbn [firstn]. rewrite flat_map_app. cbn [flat_map].
      rewrite Hl, app_nil_r. reflexivity.
    + rewrite Hfx, length_app. simpl. lia.
    + cbn [fst]. discriminate.
  - exists (length fx_files). split; [|split].
    + rewrite firstn_all. reflexivity.
    + lia.
    + reflexivity.
Qed.

(** X7: a resolved fraction passes the shape check against the target,
    has a floating dtype, and can be multiplied with the target's data. *)
Theorem resolved_fraction_invariant (cube : ref) (fx_files : fx_files_t)
    (w w1 : World A) (lf : ndarray A) (errors : list string) :
  _get_land_fraction cube fx_files w = (Return (Some lf, errors), w1) ->
  _shape_is_broadcastable (shape lf) (cube_shape (store w cube)) = true
  /\ (dtype lf = float32 \/ dtype lf = float64)
  /\ exists d, multiply (core_data (store w cube)) lf = Some d.
Proof.
  intros Hrun.
  destruct (resolved_inv _ _ _ _ _ _ Hrun)
    as (pre & v & p & path & post & _ & _ & Hu & Hp & Hlf & _ & _).
  assert (Hshape : _shape_is_broadcastable (shape lf)
                     (cube_shape (store w cube)) = true).
  { rewrite Hlf, shape_fraction_from. unfold usable in Hu. cbn [snd] in Hu.
    rewrite Hp in Hu. apply andb_true_iff in Hu as [Hs _]. exact Hs. }
  split; [exact Hshape|]. split.
  - rewrite Hlf, dtype_fraction_from.
    destruct (dtype (data (files w path))); simpl; auto.
  - apply multiply_defined. exact Hshape.
Qed.

(** X8: whatever the arguments, a call leaves the fx files, every other
    cube of the store and the name and attributes of the target as they
    were, and only adds events to the trace. *)
Theorem weighting_frame (cube : ref) (fx_files : fx_files_t)
    (area_type : string) (strict : bool) (w : World A) :
  let w' := snd (weighting_landsea_fraction cube fx_files area_type strict w) in
  files w' = files w
  /\ (forall r, r <> cube -> store w' r = store w r)
  /\ var_name (store w' cube) = var_name (store w cube)
  /\ attributes (store w' cube) = attributes (store w cube)
  /\ exists evs, trace w' = trace w ++ evs.
Proof.
  intros w'. unfold w'.
  destruct (valid_area_type area_type) eqn:Hv.
  - destruct (get_land_fraction_returns cube fx_files w)
      as ([[lf|] errors] & evs & Hrun & _).
    + destruct (weighting_resolved_outcome cube fx_files area_type strict
                  w _ lf errors Hv Hrun) as (d & _ & Hout).
      rewrite Hout.
      destruct (setter_accepts (cube_shape (store w cube)) (shape d));
        cbn [snd].
      * split; [reflexivity|]. split.
        { intros r Hr. rewrite store_update_other by exact Hr. reflexivity. }
        rewrite store_update_same.
        split; [reflexivity|]. split; [reflexivity|].
        exists evs. reflexivity.
      * repeat split. exists evs. reflexivity.
    + rewrite (weighting_absent cube fx_files area_type strict w _ errors
                 Hv Hrun).
      destruct strict; cbn [snd add_trace files store trace];
        (split; [reflexivity|]); (split; [reflexivity|]);
        (split; [reflexivity|]); (split; [reflexivity|]).
      * exists evs. reflexivity.
      * eexists. rewrite <- app_assoc. reflexivity.
  - rewrite weighting_invalid by exact Hv. cbn [snd].
    repeat split. exists []. rewrite app_nil_r. reflexivity.
Qed.

(** X9: a call that returns returns the reference it was given; with a
    valid [area_type] it never raises the [TypeError]; without [strict]
    it never raises the failure of the module. *)
Theorem weighting_returns_its_argument (cube : ref) (fx_files : fx_files_t)
    (area_type : string) (strict : bool) (w : World A) :
  let run := weighting_landsea_fraction cube fx_files area_type strict w in
  (forall r, fst run = Return r -> r = cube)
  /\ (valid_area_type area_type = true ->
      forall msg, fst run <> Raise (TypeError msg))
  /\ (strict = false ->
      forall e, fst run = Raise e -> ~ weighting_unavailable e).
Proof.
  intros run. unfold run.
  destruct (valid_area_type area_type) eqn:Hv.
  - destruct (get_land_fraction_returns cube fx_files w)
      as ([[lf|] errors] & evs & Hrun & _).
    + destruct (weighting_resolved_outcome cube fx_files area_type strict
                  w _ lf errors Hv Hrun) as (d & _ & Hout).
      rewrite Hout.
      destruct (setter_accepts (cube_shape (store w cube)) (shape d));
        cbn [fst]; (split; [|split]).
      * intros r [= <-]. reflexivity.
      * intros _ msg. discriminate.
      * intros _ e He. discriminate He.
      * intros r Hr. discriminate Hr.
      * intros _ msg. discriminate.
      * intros _ e [= <-]. apply require_shape_not_unavailable.
    + rewrite (weighting_absent cube fx_files area_type strict w _ errors
                 Hv Hrun).
      destruct strict; cbn [fst]; (split; [|split]).
      * intros r Hr. discriminate Hr.
      * intros _ msg. discriminate.
      * intros Hs. discriminate Hs.
      * intros r [= <-]. reflexivity.
      * intros _ msg. discriminate.
      * intros _ e He. discriminate He.
  - rewrite weighting_invalid by exact Hv. cbn [fst]. split; [|split].
    + intros r Hr. discriminate Hr.
    + intros Hf. discriminate Hf.
    + intros _ e [= <-] [rest Hrest]. discriminate Hrest.
Qed.

(** X10: when a fraction is resolved, [strict] makes no difference: the
    outcome and the world are the same with and without it. *)
Theorem strict_irrelevant_when_resolved (cube : ref) (fx_files : fx_files_t)
    (area_type : string) (w w1 : World A) (lf : ndarray A)
    (errors : list string) :
  valid_area_type area_type = true ->
  _get_land_fraction cube fx_files w = (Return (Some lf, errors), w1) ->
  weighting_landsea_fraction cube fx_files area_type true w
  = weighting_landsea_fraction cube fx_files area_type false w.
Proof.
  intros Hv Hrun.
  destruct (weighting_resolved_outcome cube fx_files area_type true
              w w1 lf errors Hv Hrun) as (d & Hmul & Hout).
  destruct (weighting_resolved_outcome cube fx_files area_type false
              w w1 lf errors Hv Hrun) as (d' & Hmul' & Hout').
  rewrite Hout, Hout'. rewrite Hmul in Hmul'. injection Hmul' as <-.
  reflexivity.
Qed.
End MoreResolution.

Lemma absent_one_diagnostic_per_entry_witness :
  nth_error ["File for 'sftlf' not found.";
             "Cannot calculate land fraction from 'areacello', expected 'sftlf' or 'sftof'."]
            1
  = Some (diagnostic Demo.w0 (store Demo.w0 0)
                     ("areacello", Some "areacello.nc")).
Proof.
  destruct (absent_one_diagnostic_per_entry 0
              [("sftlf", None); ("areacello", Some "areacello.nc")]
              Demo.w0 (add_trace Demo.w0 [Load "areacello.nc"])
              ["File for 'sftlf' not found.";
               "Cannot calculate land fraction from 'areacello', expected 'sftlf' or 'sftof'."]
              eq_refl) as (_ & Hne).
  destruct Hne as (_ & Hnth); [discriminate|].
  exact (Hnth 1 _ eq_refl).
Defined.

Lemma resolution_loads_in_order_witness :
  let fx := [("areacello", Some "areacello.nc"); ("sftof", None);
             ("sftlf", Some "sftlf.nc"); ("sftof2", Some "sftof.nc")] in
  exists n,
    add_trace Demo.w0 [Load "areacello.nc"; Load "sftlf.nc"]
    = add_trace Demo.w0 (flat_map loads_of (firstn n fx))
    /\ n <= 4.
Proof.
  intros fx.
  destruct (resolution_loads_in_order 0 fx Demo.w0
              (add_trace Demo.w0 [Load "areacello.nc"; Load "sftlf.nc"])
              (Some (fraction_from "sftlf" (Demo.disk "sftlf.nc")),
               [msg_cannot_calculate "areacello"; msg_not_found "sftof"])
              eq_refl) as (n & Hw1 & Hn & _).
  exists n. split; assumption.
Defined.

Lemma resolved_fraction_invariant_witness :
  _shape_is_broadcastable
    (shape (fraction_from "sftof" (Demo.disk "sftof.nc")))
    (cube_shape (store Demo.w0 0)) = true.
Proof.
  destruct (resolved_fraction_invariant 0 [("sftof", Some "sftof.nc")]
              Demo.w0 (add_trace Demo.w0 [Load "sftof.nc"])
              (fraction_from "sftof" (Demo.disk "sftof.nc")) [] eq_refl)
    as (Hshape & _).
  exact Hshape.
Defined.

Lemma strict_irrelevant_when_resolved_witness :
  weighting_landsea_fraction 0 [("sftlf", Some "sftlf.nc")] "sea" true Demo.w0
  = weighting_landsea_fraction 0 [("sftlf", Some "sftlf.nc")] "sea" false
      Demo.w0.
Proof.
  exact (strict_irrelevant_when_resolved 0 [("sftlf", Some "sftlf.nc")] "sea"
           Demo.w0 (add_trace Demo.w0 [Load "sftlf.nc"])
           (fraction_from "sftlf" (Demo.disk "sftlf.nc")) [] eq_refl eq_refl).
Defined.

(** * Further properties over the exact rationals *)

Lemma Q_percent_bounds (d : Q) :
  (0 <= d)%Q -> (d <= 100)%Q ->
  (0 <= d / 100)%Q /\ (d / 100 <= 1)%Q
  /\ (0 <= 1 - d / 100)%Q /\ (1 - d / 100 <= 1)%Q.
Proof.
  intros H0 H100.
  assert (Hdiv : Qeq (d / 100) (d * (1 # 100))) by (unfold Qdiv; reflexivity).
  rewrite !Hdiv. repeat split; lra.
Qed.

Lemma Q_weight_bounds (x f : Q) :
  (0 <= x)%Q -> (0 <= f)%Q -> (f <= 1)%Q ->
  (0 <= x * f)%Q /\ (x * f <= x)%Q.
Proof. intros Hx H0 H1. split; nra. Qed.

(** X11: on data that is 1 everywhere, a [land] weighting that is applied
    (the call returns) gives the land fraction and a [sea] weighting that
    is applied gives one minus it. *)
Theorem weighting_of_ones (cube : ref) (fx_files : fx_files_t)
    (area_type : string) (strict : bool) (w w1 : World Q) (lf : ndarray Q)
    (errors : list string) (r : ref) :
  valid_area_type area_type = true ->
  _get_land_fraction cube fx_files w = (Return (Some lf, errors), w1) ->
  (forall idx, Qeq (item (data (store w cube)) idx) 1) ->
  let run := weighting_landsea_fraction cube fx_files area_type strict w in
  fst run = Return r ->
  let new := data (store (snd run) cube) in
  (area_type = "land" ->
   forall idx, Qeq (item new idx) (item lf (bindex (shape lf) idx)))
  /\ (area_type = "sea" ->
      forall idx, Qeq (item new idx) (1 - item lf (bindex (shape lf) idx))).
Proof.
  intros Hv Hrun Hones run Hr new.
  destruct run as [o w'] eqn:Hret. cbn [fst] in Hr. subst o.
  destruct (weighting_returned_inv cube fx_files area_type strict w w1 w'
              lf errors r Hv Hrun Hret) as (_ & d & Hmul & -> & _).
  unfold new. cbn [snd]. rewrite store_update_same.
  cbn [data with_data].
  apply multiply_spec in Hmul as (_ & _ & Hitem).
  split; intros -> idx; rewrite Hitem; unfold weight_of, core_data; simpl;
    rewrite Hones; ring.
Qed.

Lemma weighting_of_ones_witness :
  let ones : World Q :=
    {| files := Demo.disk;
       store := fun _ => {| var_name := "ones"; attributes := [];
                            data := Demo.constant [2; 3] float64 1 |};
       trace := [] |} in
  Qeq (item (data (store (snd (weighting_landsea_fraction 0
                                 [("sftlf", Some "sftlf_row.nc")] "sea" true
                                 ones))
                         0)) [1; 2])
      (1 - 3 / 100).
Proof.
  intros ones.
  destruct (weighting_of_ones 0 [("sftlf", Some "sftlf_row.nc")] "sea" true
              ones (add_trace ones [Load "sftlf_row.nc"])
              (fraction_from "sftlf" (Demo.disk "sftlf_row.nc")) [] 0
              eq_refl eq_refl) as (_ & Hsea).
  - intros idx. reflexivity.
  - reflexivity.
  - exact (Hsea eq_refl [1; 2]).
Defined.

(** X12: [sftlf] and [sftof] are complementary: when the percentages of
    two files add up to 100 everywhere, the fraction resolved from the
    first as [sftlf] and the fraction resolved from the second as [sftof]
    are equal element by element. *)
Theorem sftlf_sftof_complementary (cube : ref) (p_lf p_of : option string)
    (path_lf path_of : string) (w w1 w2 : World Q) (lf1 lf2 : ndarray Q)
    (e1 e2 : list string) :
  source_of p_lf = Some path_lf ->
  source_of p_of = Some path_of ->
  _get_land_fraction cube [("sftlf", p_lf)] w = (Return (Some lf1, e1), w1) ->
  _get_land_fraction cube [("sftof", p_of)] w = (Return (Some lf2, e2), w2) ->
  (forall idx,
      Qeq (item (data (files w path_lf)) idx + item (data (files w path_of)) idx)
          100) ->
  forall idx, Qeq (item lf1 idx) (item lf2 idx).
Proof.
  intros Hp1 Hp2 Hrun1 Hrun2 Hsum idx.
  unfold _get_land_fraction in Hrun1, Hrun2.
  cbn [_get_land_fraction_for] in Hrun1, Hrun2.
  rewrite Hp1 in Hrun1. rewrite Hp2 in Hrun2.
  unfold bind, iris_load_cube, emit, ret, deref in Hrun1, Hrun2.
  cbn in Hrun1, Hrun2.
  destruct (_shape_is_broadcastable (cube_shape (files w path_lf))
              (cube_shape (store w cube))); cbn in Hrun1; [|discriminate].
  destruct (_shape_is_broadcastable (cube_shape (files w path_of))
              (cube_shape (store w cube))); cbn in Hrun2; [|discriminate].
  injection Hrun1 as <- _ _. injection Hrun2 as <- _ _.
  cbn. specialize (Hsum idx). unfold core_data.
  assert (Hdiv : forall d : Q, Qeq (d / 100) (d * (1 # 100)))
    by (intros d; unfold Qdiv; reflexivity).
  rewrite !Hdiv. lra.
Qed.

Lemma sftlf_sftof_complementary_witness :
  Qeq (item (fraction_from "sftlf" (Demo.disk "sftlf.nc")) [1; 2])
      (item (fraction_from "sftof" (Demo.disk "sftlf_time.nc")) [1; 2]).
Proof.
  apply (sftlf_sftof_complementary 0 (Some "sftlf.nc") (Some "sftlf_time.nc")
           "sftlf.nc" "sftlf_time.nc" Demo.w0
           (add_trace Demo.w0 [Load "sftlf.nc"])
           (add_trace Demo.w0 [Load "sftlf_time.nc"])
           (fraction_from "sftlf" (Demo.disk "sftlf.nc"))
           (fraction_from "sftof" (Demo.disk "sftlf_time.nc")) [] []
           eq_refl eq_refl eq_refl eq_refl).
  intros idx. reflexivity.
Defined.

(** X13: when every fx file holds percentages between 0 and 100, a
    resolved fraction lies between 0 and 1, and after the call data that
    was nowhere negative is nowhere negative and, at every index of the
    cube, at most the original data; when the weighting is applied (the
    call returns) every element is at most the original element that
    broadcasting reads. *)
Theorem weighting_bounds (cube : ref) (fx_files : fx_files_t)
    (area_type : string) (strict : bool) (w w1 : World Q) (lf : ndarray Q)
    (errors : list string) :
  valid_area_type area_type = true ->
  _get_land_fraction cube fx_files w = (Return (Some lf, errors), w1) ->
  (forall path idx,
      (0 <= item (data (files w path)) idx)%Q
      /\ (item (data (files w path)) idx <= 100)%Q) ->
  (forall idx, (0 <= item lf idx)%Q /\ (item lf idx <= 1)%Q)
  /\ ((forall idx, (0 <= item (data (store w cube)) idx)%Q) ->
      let orig := data (store w cube) in
      let run := weighting_landsea_fraction cube fx_files area_type strict w in
      let new := data (store (snd run) cube) in
      (forall idx, (0 <= item new idx)%Q)
      /\ (forall idx,
             valid_index (shape orig) idx ->
             (item new idx <= item orig idx)%Q)
      /\ (forall r,
             fst run = Return r ->
             forall idx,
               (0 <= item new idx)%Q
               /\ (item new idx <= item orig (bindex (shape orig) idx))%Q)).
Proof.
  intros Hv Hrun Hfx.
  destruct (resolved_inv _ _ _ _ _ _ Hrun)
    as (pre & v & p & path & post & _ & _ & Hu & _ & Hlf & _ & Hw1).
  assert (Hfrac : forall idx, (0 <= item lf idx)%Q /\ (item lf idx <= 1)%Q).
  { intros idx. destruct (Hfx path idx) as [H0 H100].
    destruct (Q_percent_bounds _ H0 H100) as (Ha & Hb & Hc & Hd).
    rewrite Hlf. destruct (usable_var _ _ _ _ Hu) as [-> | ->];
      cbn; unfold core_data; split; assumption. }
  split; [exact Hfrac|].
  intros Hdata orig run new.
  destruct (weighting_resolved_outcome cube fx_files area_type strict
              w w1 lf errors Hv Hrun) as (d & Hmul & Hout).
  apply multiply_spec in Hmul as (_ & _ & Hitem).
  assert (Hprod : forall idx,
             (0 <= item d idx)%Q
             /\ (item d idx <= item orig (bindex (shape orig) idx))%Q).
  { intros idx. rewrite Hitem. unfold core_data. fold orig.
    destruct (Hfrac (bindex (shape lf) idx)) as [Hf0 Hf1].
    pose proof (Hdata (bindex (shape orig) idx)) as Hx. fold orig in Hx.
    set (x := item orig (bindex (shape orig) idx)) in *.
    set (f := item lf (bindex (shape lf) idx)) in *.
    destruct (valid_area_type_cases _ Hv) as [-> | ->].
    - change (0 <= x * f /\ x * f <= x)%Q.
      apply Q_weight_bounds; assumption.
    - change (0 <= x * (1 - f) /\ x * (1 - f) <= x)%Q.
      apply Q_weight_bounds; [assumption| |]; lra. }
  destruct (setter_accepts (cube_shape (store w cube)) (shape d)) eqn:Hacc.
  - assert (Hnew : new = d).
    { unfold new, run. rewrite Hout. cbn [snd].
      rewrite store_update_same. reflexivity. }
    rewrite Hnew. split; [intros idx; apply Hprod|]. split.
    + intros idx Hidx. destruct (Hprod idx) as [_ Hle].
      rewrite (bindex_valid _ _ Hidx) in Hle. exact Hle.
    + intros r _ idx. apply Hprod.
  - assert (Hnew : new = orig).
    { unfold new, run. rewrite Hout. cbn [snd]. rewrite Hw1. reflexivity. }
    rewrite Hnew. split; [intros idx; apply Hdata|]. split.
    + intros idx _. apply Qle_refl.
    + intros r Hr. unfold run in Hr. rewrite Hout in Hr. discriminate Hr.
Qed.

Lemma weighting_bounds_witness :
  let w : World Q :=
    {| files := fun _ => Demo.fx "sftlf" (Demo.constant [2; 3] float64 50);
       store := Demo.memory;
       trace := [] |} in
  Qle 0 (item (fraction_from "sftlf" (files w "sftlf.nc")) [1; 2])
  /\ Qle (item (fraction_from "sftlf" (files w "sftlf.nc")) [1; 2]) 1.
Proof.
  intros w.
  destruct (weighting_bounds 0 [("sftlf", Some "sftlf.nc")] "land" true w
              (add_trace w [Load "sftlf.nc"])
              (fraction_from "sftlf" (files w "sftlf.nc")) []
              eq_refl eq_refl) as (Hfrac & _).
  - intros path idx. split; discriminate.
  - exact (Hfrac [1; 2]).
Defined.

(** * Properties of the documentation build *)

Lemma split_on_head (sep : ascii) (s : string) :
  exists piece pieces rest,
    Conf.split_on sep s = piece :: pieces
    /\ Conf.has_char sep piece = false
    /\ s = String.append piece rest
    /\ (rest = EmptyString \/ exists r, rest = String sep r).
Proof.
  induction s as [|c s IH].
  - exists EmptyString, [], EmptyString. repeat split. left. reflexivity.
  - cbn [Conf.split_on]. destruct (Ascii.eqb c sep) eqn:Hc.
    + apply Ascii.eqb_eq in Hc. subst c.
      exists EmptyString, (Conf.split_on sep s), (String sep s).
      repeat split. right. exists s. reflexivity.
    + destruct IH as (piece & pieces & rest & Hsplit & Hno & Hs & Hrest).
      rewrite Hsplit. exists (String c piece), pieces, rest.
      split; [reflexivity|]. split; [|split].
      * cbn [Conf.has_char]. rewrite Hc, Hno. reflexivity.
      * cbn [String.append]. rewrite <- Hs. reflexivity.
      * exact Hrest.
Qed.

(** X14: whatever the environment, [rtd_version] is [latest] or [doc]; it
    is [doc] exactly when [READTHEDOCS_VERSION] is set to [doc]; so the
    links to the esmvalcore and esmvaltool documentation go to one of two
    fixed addresses each. *)
Theorem rtd_version_latest_or_doc (env : Conf.environ) :
  (Conf.rtd_version env = "latest" \/ Conf.rtd_version env = "doc")
  /\ (Conf.rtd_version env = "doc" <-> env "READTHEDOCS_VERSION" = Some "doc")
  /\ (Conf.intersphinx_esmvalcore env
      = "https://docs.esmvaltool.org/projects/esmvalcore/en/latest/"
      \/ Conf.intersphinx_esmvalcore env
         = "https://docs.esmvaltool.org/projects/esmvalcore/en/doc/")
  /\ (Conf.intersphinx_esmvaltool env = "https://docs.esmvaltool.org/en/latest/"
      \/ Conf.intersphinx_esmvaltool env = "https://docs.esmvaltool.org/en/doc/").
Proof.
  unfold Conf.intersphinx_esmvalcore, Conf.intersphinx_esmvaltool.
  unfold Conf.rtd_version, Conf.environ_get, Conf.str_in.
  destruct (env "READTHEDOCS_VERSION") as [v|]; cbn [existsb].
  - destruct (String.eqb_spec v "latest") as [-> | Hl]; cbn [orb negb].
    + repeat split; auto; discriminate.
    + destruct (String.eqb_spec v "doc") as [-> | Hd]; cbn [orb negb].
      * repeat split; auto.
      * repeat split; auto; try discriminate.
        intros [= ->]. contradiction.
  - cbn. repeat split; auto; discriminate.
Qed.

(** X15: the short version is the part of [__version__] before its first
    dot: it contains no dot, the release is the short version followed by
    nothing or by a dot and more, and a version without a dot is its own
    short version. *)
Theorem version_is_first_component (__version__ : string) :
  Conf.has_char "." (Conf.version __version__) = false
  /\ (exists rest,
         Conf.release __version__
         = String.append (Conf.version __version__) rest
         /\ (rest = EmptyString \/ exists r, rest = String "." r))
  /\ (Conf.has_char "." __version__ = false ->
      Conf.version __version__ = __version__).
Proof.
  unfold Conf.version, Conf.release.
  destruct (split_on_head "." __version__)
    as (piece & pieces & rest & Hsplit & Hno & Hs & Hrest).
  rewrite Hsplit. cbn [firstn join String.concat]. unfold join. cbn [String.concat].
  split; [exact Hno|]. split.
  - exists rest. split; assumption.
  - intros Hnodot. destruct Hrest as [-> | [r ->]].
    + rewrite append_empty_r in Hs. symmetry. exact Hs.
    + exfalso. rewrite Hs in Hnodot. clear - Hnodot.
      induction piece as [|c piece IH]; cbn in Hnodot; [discriminate|].
      apply orb_false_iff in Hnodot as [_ Hnodot]. apply IH. exact Hnodot.
Qed.

Lemma version_is_first_component_witness :
  Conf.version "2" = "2" /\ Conf.version "2.3.0" = "2".
Proof.
  destruct (version_is_first_component "2") as (_ & _ & Hsame).
  split; [exact (Hsame eq_refl)|reflexivity].
Defined.

(** * Weighting a cube again *)

Lemma existsb_pointwise {X} (f g : X -> bool) (l : list X) :
  (forall x, f x = g x) -> existsb f l = existsb g l.
Proof.
  intros Hfg. induction l as [|x l IH]; [reflexivity|].
  simpl. rewrite Hfg, IH. reflexivity.
Qed.

Section Again.
Context {A : Type} `{Scalar A}.

Lemma usable_ext (w w' : World A) (target : shape_t)
    (entry : string * option string) :
  files w' = files w -> usable w' target entry = usable w target entry.
Proof. intros Hf. unfold usable. rewrite Hf. reflexivity. Qed.

Lemma diagnostic_ext (w w' : World A) (c c' : Cube A)
    (entry : string * option string) :
  files w' = files w -> cube_shape c' = cube_shape c ->
  var_name c' = var_name c ->
  diagnostic w' c' entry = diagnostic w c entry.
Proof.
  intros Hf Hs Hn. unfold diagnostic. rewrite Hf, Hs, Hn. reflexivity.
Qed.

(** The resolution reads the files and the shape and name of the target. *)
Lemma resolved_ext (cube : ref) (fx_files : fx_files_t) (w w1 w' : World A)
    (lf : ndarray A) (errors : list string) :
  files w' = files w ->
  cube_shape (store w' cube) = cube_shape (store w cube) ->
  var_name (store w' cube) = var_name (store w cube) ->
  _get_land_fraction cube fx_files w = (Return (Some lf, errors), w1) ->
  exists w1',
    _get_land_fraction cube fx_files w' = (Return (Some lf, errors), w1').
Proof.
  intros Hf Hs Hn Hrun.
  destruct (resolved_inv _ _ _ _ _ _ Hrun)
    as (pre & v & p & path & post & Hfx & Hpre & Hu & Hp & Hlf & Herr & _).
  eexists. unfold _get_land_fraction. rewrite Hfx.
  replace (match pre ++ (v, p) :: post with
           | [] => [msg_no_files]
           | _ :: _ => []
           end) with (@nil string) by (destruct pre; reflexivity).
  rewrite for_skip_prefix.
  - rewrite (for_break cube v p path).
    + rewrite Hlf, Herr. cbn [files store add_trace app]. rewrite Hf.
      f_equal. f_equal. f_equal. apply map_ext. intros e.
      apply diagnostic_ext; assumption.
    + rewrite (usable_ext w) by exact Hf.
      cbn [store add_trace]. rewrite Hs. exact Hu.
    + exact Hp.
  - rewrite Hs. rewrite <- Hpre. apply existsb_pointwise. intros e.
    apply usable_ext. exact Hf.
Qed.

(** X16: the weighting is not idempotent: when the first call keeps the
    shape of the target, a second call with the same arguments resolves
    the same fraction with the same diagnostics and multiplies the
    weighted data with the same weight once more. *)
Theorem weighting_again_weights_again (cube : ref) (fx_files : fx_files_t)
    (area_type : string) (strict : bool) (w w1 : World A) (lf : ndarray A)
    (errors : list string) :
  valid_area_type area_type = true ->
  _get_land_fraction cube fx_files w = (Return (Some lf, errors), w1) ->
  shape_broadcasts_to (shape lf) (cube_shape (store w cube)) = true ->
  let once := snd (weighting_landsea_fraction cube fx_files area_type strict w) in
  let run := weighting_landsea_fraction cube fx_files area_type strict once in
  (exists w2,
      _get_land_fraction cube fx_files once = (Return (Some lf, errors), w2))
  /\ fst run = Return cube
  /\ (area_type = "land" ->
      forall idx,
        item (data (store (snd run) cube)) idx =
        smul (item (data (store once cube))
                   (bindex (cube_shape (store once cube)) idx))
             (item lf (bindex (shape lf) idx)))
  /\ (area_type = "sea" ->
      forall idx,
        item (data (store (snd run) cube)) idx =
        smul (item (data (store once cube))
                   (bindex (cube_shape (store once cube)) idx))
             (ssub lit_1 (item lf (bindex (shape lf) idx)))).
Proof.
  intros Hv Hrun Hto once run.
  destruct (weighting_resolved_returns cube fx_files area_type strict
              w w1 lf errors Hv Hrun Hto) as (d & Hmul & Hd & Hret).
  destruct (resolved_inv _ _ _ _ _ _ Hrun)
    as (pre & v & p & path & post & _ & _ & _ & _ & _ & _ & Hw1).
  assert (Honce : once = update_data w1 cube d)
    by (unfold once; rewrite Hret; reflexivity).
  assert (Hshape : cube_shape (store once cube) = cube_shape (store w cube)).
  { rewrite Honce, store_update_same. unfold cube_shape. cbn [data with_data].
    exact Hd. }
  destruct (resolved_ext cube fx_files w w1 once lf errors) as [w2 Hrun2];
    try assumption.
  { rewrite Honce, Hw1. reflexivity. }
  { rewrite Honce, store_update_same, Hw1. reflexivity. }
  split; [exists w2; exact Hrun2|].
  destruct (weighting_resolved_returns cube fx_files area_type strict
              once w2 lf errors Hv Hrun2) as (d2 & Hmul2 & _ & Hret2);
    [rewrite Hshape; exact Hto|].
  unfold run. rewrite Hret2. cbn [fst snd]. split; [reflexivity|].
  rewrite store_update_same. cbn [data with_data].
  apply multiply_spec in Hmul2 as (_ & _ & Hitem).
  rewrite shape_weight_of in Hitem.
  split; intros ->; intros idx; rewrite Hitem; reflexivity.
Qed.
End Again.

Lemma weighting_again_weights_again_witness :
  let fx := [("sftlf", Some "sftlf.nc")] in
  let once := snd (weighting_landsea_fraction 0 fx "land" true Demo.w0) in
  let twice := snd (weighting_landsea_fraction 0 fx "land" true once) in
  Qeq (item (data (store twice 0)) [1; 2]) (13 * (50 / 100) * (50 / 100)).
Proof.
  intros fx once twice.
  destruct (weighting_again_weights_again 0 fx "land" true Demo.w0
              (add_trace Demo.w0 [Load "sftlf.nc"])
              (fraction_from "sftlf" (Demo.disk "sftlf.nc")) []
              eq_refl eq_refl eq_refl) as (_ & _ & Hland & _).
  unfold twice, once. rewrite (Hland eq_refl [1; 2]). reflexivity.
Defined.
